(** * udp-sensor-server: the packet parser and the per-device packet buffer

    A shallow embedding of [IoTUDPServer.parse_packet],
    [IoTUDPServer.process_complete_dataset] and the receive loop of
    [IoTUDPServer.start] (src/udp-server.py), and the properties of the
    decoder and of the reassembly buffer stated over it.

    Python values are modelled as follows.
    - [bytes] is [list byte]; [str] is a list of Unicode code points
      ([pystr], code points as [N]); [bytes.decode('utf-8')] is the strict
      decoder [utf8_decode].
    - A [dict] that is only read by key is a [gmap]: [channel_data], and
      [packet_buffer], a [defaultdict(dict)] that is never iterated. The
      inner dict of a device, which is iterated with [values()], is an
      insertion-ordered association list ([pydict]): assignment to a
      present key keeps its position, assignment to a new key appends.
    - Exceptions raised inside a [try] are the left summand of the monad
      [M]; the calls to [self.logger] are collected in a log.
    - The builtins [float] and [int] are parameters [py_float] and
      [py_int] of the development.
    - The file that [write_to_csv] appends to is the list of the rows
      written to it; the clock and the file system are arguments. *)

From Stdlib.Strings Require Import Byte.
From Stdlib Require Import NArith ZArith.
From Stdlib Require String Ascii.
Import String.StringSyntax.
From stdpp Require Import gmap list sorting.

Open Scope N_scope.

(** ** Text *)

(** A Python [str]: the sequence of its code points. *)
Abbreviation pystr := (list N).

(** An ASCII literal as a [str] and as [bytes]. *)
Definition u (s : String.string) : pystr :=
  map Ascii.N_of_ascii (String.list_ascii_of_string s).

Definition b (s : String.string) : list byte :=
  String.list_byte_of_string s.

Arguments u s%_string_scope.
Arguments b s%_string_scope.

Definition in_range (lo hi x : N) : bool := (lo <=? x) && (x <=? hi).

(** A continuation byte [10xxxxxx]. *)
Definition is_cont (x : N) : bool := in_range 0x80 0xBF x.

Definition low6 (x : N) : N := N.land x 0x3F.

(** [bytes.decode('utf-8')] with the default [errors='strict'], on the
    values of the bytes: the well-formed sequences are those of the Unicode
    standard (no overlong form, no surrogate, nothing above U+10FFFF);
    [None] stands for [UnicodeDecodeError]. *)
Fixpoint utf8_decode_N (bs : list N) : option pystr :=
  match bs with
  | [] => Some []
  | b0 :: t0 =>
    if b0 <? 0x80 then cons b0 <$> utf8_decode_N t0
    else
      match t0 with
      | [] => None
      | b1 :: t1 =>
        if in_range 0xC2 0xDF b0 then
          if is_cont b1
          then cons (N.lor (N.shiftl (N.land b0 0x1F) 6) (low6 b1))
                 <$> utf8_decode_N t1
          else None
        else
          match t1 with
          | [] => None
          | b2 :: t2 =>
            if in_range 0xE0 0xEF b0 then
              if in_range (if b0 =? 0xE0 then 0xA0 else 0x80)
                          (if b0 =? 0xED then 0x9F else 0xBF) b1
                 && is_cont b2
              then cons (N.lor (N.shiftl (N.land b0 0x0F) 12)
                           (N.lor (N.shiftl (low6 b1) 6) (low6 b2)))
                     <$> utf8_decode_N t2
              else None
            else
              match t2 with
              | [] => None
              | b3 :: t3 =>
                if in_range 0xF0 0xF4 b0
                   && in_range (if b0 =? 0xF0 then 0x90 else 0x80)
                               (if b0 =? 0xF4 then 0x8F else 0xBF) b1
                   && is_cont b2 && is_cont b3
                then cons (N.lor (N.shiftl (N.land b0 0x07) 18)
                             (N.lor (N.shiftl (low6 b1) 12)
                                (N.lor (N.shiftl (low6 b2) 6) (low6 b3))))
                       <$> utf8_decode_N t3
                else None
              end
          end
      end
  end.

Definition utf8_decode (packet_bytes : list byte) : option pystr :=
  utf8_decode_N (map Byte.to_N packet_bytes).

(** [str.isspace] on one character: the white space that [str.strip()]
    removes (CPython's [_PyUnicode_IsWhitespace]). *)
Definition py_isspace (c : N) : bool :=
  in_range 0x09 0x0D c || in_range 0x1C 0x20 c || (c =? 0x85) || (c =? 0xA0)
  || (c =? 0x1680) || in_range 0x2000 0x200A c || (c =? 0x2028)
  || (c =? 0x2029) || (c =? 0x202F) || (c =? 0x205F) || (c =? 0x3000).

Fixpoint lstrip (s : pystr) : pystr :=
  match s with
  | [] => []
  | c :: t => if py_isspace c then lstrip t else s
  end.

Definition rstrip (s : pystr) : pystr := rev (lstrip (rev s)).

(** [s.strip()] *)
Definition strip (s : pystr) : pystr := rstrip (lstrip s).

(** [s.split(sep)] for a separator of one character: never empty. *)
Fixpoint split (sep : N) (s : pystr) : list pystr :=
  match s with
  | [] => [[]]
  | c :: t =>
    if c =? sep then [] :: split sep t
    else match split sep t with
         | p :: ps => (c :: p) :: ps
         | [] => [[c]]
         end
  end.

Fixpoint startswith (pat s : pystr) : bool :=
  match pat, s with
  | [], _ => true
  | _ :: _, [] => false
  | p :: pat', c :: s' => (p =? c) && startswith pat' s'
  end.

(** [pat in s] *)
Fixpoint contains (pat s : pystr) : bool :=
  startswith pat s ||
  match s with
  | [] => false
  | _ :: t => contains pat t
  end.

(** [s.replace(pat, '')] for a non-empty [pat]: the occurrences are found
    from the left and do not overlap; [skip] counts the characters of the
    occurrence being removed that are still to pass. *)
Fixpoint remove_from (pat s : pystr) (skip : nat) : pystr :=
  match s with
  | [] => []
  | c :: t =>
    match skip with
    | S k => remove_from pat t k
    | O => if startswith pat s then remove_from pat t (Nat.pred (length pat))
           else c :: remove_from pat t O
    end
  end.

Definition remove_all (pat s : pystr) : pystr := remove_from pat s O.

Definition sendVal : pystr := Eval cbv in u "sendVal".
Definition s_NaN : pystr := Eval cbv in u "NaN".
Definition c_lt : N := 60.   (* '<' *)
Definition c_gt : N := 62.   (* '>' *)
Definition c_semi : N := 59. (* ';' *)
Definition c_eq : N := 61.   (* '=' *)

(** ** Dictionaries *)

(** A Python [dict]: the items in insertion order, keys pairwise distinct. *)
Abbreviation pydict K V := (list (K * V)).

Section pydict.
Context {K V : Type} `{EqDecision K}.

(** [d[k] = v]: a present key keeps its place, a new key goes last. *)
Fixpoint dict_set (k : K) (v : V) (d : pydict K V) : pydict K V :=
  match d with
  | [] => [(k, v)]
  | (k', v') :: d' =>
    if decide (k = k') then (k', v) :: d' else (k', v') :: dict_set k v d'
  end.

(** [d.values()] and [d.keys()], in iteration order. *)
Definition dict_values (d : pydict K V) : list V := map snd d.
Definition dict_keys (d : pydict K V) : list K := map fst d.
End pydict.

(** ** Exceptions and the logger *)

(** The exceptions that the body of [parse_packet] can raise. *)
Inductive exn : Set :=
| UnicodeDecodeError   (* packet_bytes.decode('utf-8') *)
| IndexError           (* packet_str.split('<')[1] *)
| ValueError           (* channel_num, value = ... : too many values *)
| UnboundLocalError.   (* channels_part read before assignment *)

(** The calls to [self.logger] made by [parse_packet]. *)
Inductive log_entry : Set :=
| Warning_could_not_parse (channel_num value : pystr)   (* line 83 *)
| Error_parsing_packet (e : exn).                       (* line 94 *)

(** A computation inside [try]: the log entries written, then the exception
    raised or the value. *)
Definition M (A : Type) : Type := list log_entry * (exn + A).

Definition ret {A} (a : A) : M A := ([], inr a).
Definition raise {A} (e : exn) : M A := ([], inl e).
Definition warning (l : log_entry) : M unit := ([l], inr tt).

Definition bind {A B} (m : M A) (f : A -> M B) : M B :=
  match m with
  | (l, inl e) => (l, inl e)
  | (l, inr a) => let (l', r) := f a in (l ++ l', r)
  end.

#[global] Instance M_ret : MRet M := @ret.
#[global] Instance M_bind : MBind M := fun A B f m => bind m f.

(** The same computation with [f] applied to its value. *)
Definition M_map {A B} (f : A -> B) (m : M A) : M B :=
  (m.1, match m.2 with inl e => inl e | inr a => inr (f a) end).

#[global] Instance M_fmap : FMap M := @M_map.

(** Unfolds the operations of [M]. *)
Ltac unfold_M :=
  unfold mbind, M_bind, mret, M_ret, fmap, M_fmap, M_map, bind, ret, raise,
    warning in *.

(** [l[i]] on a list, a negative [i] counting from the end. *)
Definition getitem {A} (l : list A) (i : Z) : M A :=
  let j := (if i <? 0 then i + Z.of_nat (length l) else i)%Z in
  if (j <? 0)%Z then raise IndexError
  else match l !! Z.to_nat j with
       | Some a => ret a
       | None => raise IndexError
       end.

(** ** The server *)

(** The dict that [parse_packet] returns. *)
Record parsed (float : Type) : Type := mk_parsed {
  serial : pystr;
  channel_data : gmap pystr (option float);
  checksum : pystr;
  raw_packet : pystr;
  is_end_marker : bool
}.
Arguments mk_parsed {float}.
Arguments serial {float}.
Arguments channel_data {float}.
Arguments checksum {float}.
Arguments raw_packet {float}.
Arguments is_end_marker {float}.

(** What [process_complete_dataset] hands to [save_to_database] and
    [write_to_csv]: the reading of one device. *)
Record reading (float : Type) : Type := mk_reading {
  r_serial : pystr;
  r_channel_data : gmap pystr (option float);
  r_raw_packets : list pystr
}.
Arguments mk_reading {float}.
Arguments r_serial {float}.
Arguments r_channel_data {float}.
Arguments r_raw_packets {float}.

(** The state of an [IoTUDPServer] that the receive loop reads and writes:
    [packet_buffer], the log, and the readings handed to the two sinks. *)
Record IoTUDPServer (float : Type) : Type := mk_server {
  buffer_size : nat;
  packet_buffer : gmap pystr (pydict nat (parsed float));
  log : list log_entry;
  saved : list (reading float)
}.
Arguments mk_server {float}.
Arguments buffer_size {float}.
Arguments packet_buffer {float}.
Arguments log {float}.
Arguments saved {float}.

(** [IoTUDPServer()] *)
Definition new_server (float : Type) : IoTUDPServer float :=
  mk_server 1024%nat ∅ [] [].

Section Server.
Context {float : Type}.

(** [float(value)]: [None] when it raises [ValueError]. *)
Variable py_float : pystr -> option float.

Implicit Types (self : IoTUDPServer float) (channel_data : gmap pystr (option float)).

(** Lines 76-83: the value of one channel. *)
Definition parse_value channel_data (channel_num value : pystr)
  : M (gmap pystr (option float)) :=
  if decide (strip value = s_NaN) then
    mret (<[channel_num := None]> channel_data)
  else
    match py_float value with
    | Some x => mret (<[channel_num := Some x]> channel_data)
    | None =>
      warning (Warning_could_not_parse channel_num value);;
      mret channel_data
    end.

(** Lines 74-83: the body of the loop over the channels. *)
Definition parse_channel channel_data (channel : pystr)
  : M (gmap pystr (option float)) :=
  if contains [c_eq] channel then
    match split c_eq (strip channel) with
    | [channel_num; value] => parse_value channel_data channel_num value
    | _ => raise ValueError
    end
  else mret channel_data.

(** Line 73: [for channel in channels_part.split(';')]. *)
Fixpoint parse_channels channel_data (channels : list pystr)
  : M (gmap pystr (option float)) :=
  match channels with
  | [] => mret channel_data
  | channel :: rest =>
    d ← parse_channel channel_data channel;
    parse_channels d rest
  end.

(** Lines 69-83. The first component is the local [channels_part]:
    [None] while it has not been assigned. *)
Definition parse_channel_data (content : pystr)
  : M (option pystr * gmap pystr (option float)) :=
  if contains sendVal content then
    let channels_part := strip (remove_all sendVal content) in
    match channels_part with
    | [] => mret (Some channels_part, ∅)
    | _ :: _ =>
      d ← parse_channels ∅ (split c_semi channels_part);
      mret (Some channels_part, d)
    end
  else mret (None, ∅).

(** Line 65: [packet_str.split('<')[1].split('>')[0]]. *)
Definition content_of (packet_str : pystr) : M pystr :=
  x ← getitem (split c_lt packet_str) 1;
  getitem (split c_gt x) 0.

(** Lines 69-91: the channels and the dict returned, from the three
    components of lines 64-66. *)
Definition parse_content (serial content checksum packet_str : pystr)
  : M (parsed float) :=
  '(channels_part, channel_data) ← parse_channel_data content;
  channels_part ← match channels_part with
                  | Some s => mret s
                  | None => raise UnboundLocalError
                  end;
  mret {| serial := serial;
          channel_data := channel_data;
          checksum := checksum;
          raw_packet := packet_str;
          is_end_marker := bool_decide (strip channels_part = []) |}.

(** Lines 64-91: the body of the [try] once the text is decoded. *)
Definition parse_packet_str (packet_str : pystr) : M (parsed float) :=
  serial ← getitem (split c_lt packet_str) 0;
  content ← content_of packet_str;
  checksum ← getitem (split c_gt packet_str) (-1);
  parse_content serial content checksum packet_str.

(** Lines 61-91: the body of the [try]. *)
Definition parse_packet_try (packet_bytes : list byte) : M (parsed float) :=
  packet_str ← match utf8_decode packet_bytes with
               | Some s => mret s
               | None => raise UnicodeDecodeError
               end;
  parse_packet_str packet_str.

Definition add_log (l : list log_entry) self : IoTUDPServer float :=
  mk_server (buffer_size self) (packet_buffer self) (log self ++ l) (saved self).

(** [self.parse_packet(packet_bytes)]: every exception is caught, logged,
    and turned into [None]. *)
Definition parse_packet self (packet_bytes : list byte)
  : IoTUDPServer float * option (parsed float) :=
  match parse_packet_try packet_bytes with
  | (l, inr p) => (add_log l self, Some p)
  | (l, inl e) => (add_log (l ++ [Error_parsing_packet e]) self, None)
  end.

(** [self.packet_buffer[serial]] on the [defaultdict(dict)]: a missing
    serial is first given an empty dict. *)
Definition defaultdict_getitem
    (buf : gmap pystr (pydict nat (parsed float))) (serial : pystr)
  : gmap pystr (pydict nat (parsed float)) * pydict nat (parsed float) :=
  match buf !! serial with
  | Some d => (buf, d)
  | None => (<[serial := []]> buf, [])
  end.

(** Lines 155-160: the merge of the buffered packets, in the order of
    [values()]; [combined.update(d)] keeps the values of [d] on the keys
    that both have. *)
Definition combine (packets : list (parsed float))
  : gmap pystr (option float) * list pystr :=
  fold_left
    (fun acc packet_info =>
       (channel_data packet_info ∪ acc.1,
        acc.2 ++ [raw_packet packet_info]))
    packets (∅, []).

(** [self.process_complete_dataset(serial)]. [save_to_database] and
    [write_to_csv] catch their own errors and return; the reading they
    are given is recorded in [saved]. *)
Definition process_complete_dataset self (serial : pystr)
  : IoTUDPServer float :=
  let '(buf, d) := defaultdict_getitem (packet_buffer self) serial in
  let '(combined_channel_data, raw_packets) := combine (dict_values d) in
  mk_server (buffer_size self)
            (delete serial buf)
            (log self)
            (saved self ++ [mk_reading serial combined_channel_data raw_packets]).

(** Lines 188-196: what the loop does with a parsed packet. *)
Definition dispatch self (p : parsed float) : IoTUDPServer float :=
  let serial := serial p in
  if is_end_marker p then
    match packet_buffer self !! serial with
    | Some _ => process_complete_dataset self serial
    | None => self
    end
  else
    let '(buf, d) := defaultdict_getitem (packet_buffer self) serial in
    let '(buf, d') := defaultdict_getitem buf serial in
    mk_server (buffer_size self)
              (<[serial := dict_set (length d') p d]> buf)
              (log self) (saved self).

(** Lines 185-196: one turn of the loop on the datagram received. *)
Definition handle_datagram self (data : list byte) : IoTUDPServer float :=
  match parse_packet self data with
  | (self, Some p) => dispatch self p
  | (self, None) => self
  end.

(** Lines 183-196 over the datagrams that arrive: [recvfrom] keeps at
    most [buffer_size] bytes of each. *)
Definition start self (datagrams : list (list byte)) : IoTUDPServer float :=
  fold_left (fun self dg => handle_datagram self (take (buffer_size self) dg))
            datagrams self.

(** The loop on packets that are already parsed. *)
Definition dispatch_all self (ps : list (parsed float)) : IoTUDPServer float :=
  fold_left dispatch ps self.
End Server.

(** ** A reading of [float] for the examples *)

(** The numeral that [float] reads, before it is rounded to a double:
    [(-1)^negative * mantissa * 10^exponent], an infinity or a NaN. *)
Inductive pyfloat : Set :=
| Finite (negative : bool) (mantissa : N) (exponent : Z)
| Infinite (negative : bool)
| Nan.

Definition digit_of (c : N) : option N :=
  if in_range 48 57 c then Some (c - 48) else None.

(** After the first digit of a [digitpart]: [(["_"] digit)*]. The result is
    the number read, how many digits it had, and the text left. *)
Fixpoint digits_rest (s : pystr) (acc : N) (n : nat) : N * nat * pystr :=
  match s with
  | [] => (acc, n, [])
  | c :: t =>
    match digit_of c with
    | Some d => digits_rest t (10 * acc + d) (S n)
    | None =>
      if c =? 95 then
        match t with
        | c' :: _ => if in_range 48 57 c' then digits_rest t acc n
                     else (acc, n, s)
        | [] => (acc, n, s)
        end
      else (acc, n, s)
    end
  end.

(** [digitpart ::= digit (["_"] digit)*] at the head of [s]. *)
Definition digitpart (s : pystr) : option (N * nat * pystr) :=
  match s with
  | [] => None
  | c :: t =>
    match digit_of c with
    | Some d => Some (digits_rest t d 1%nat)
    | None => None
    end
  end.

(** An optional sign: whether it is [-], and the text after it. *)
Definition sign_of (s : pystr) : bool * pystr :=
  match s with
  | c :: t => if c =? 45 then (true, t) else if c =? 43 then (false, t)
              else (false, s)
  | [] => (false, s)
  end.

(** [exponent ::= ("e" | "E") [sign] digitpart], to the end of the text;
    no exponent is the exponent 0. *)
Definition exponent_of (s : pystr) : option Z :=
  match s with
  | [] => Some 0%Z
  | c :: t =>
    if (c =? 101) || (c =? 69) then
      let '(neg, t') := sign_of t in
      match digitpart t' with
      | Some (e, _, []) => Some (if neg then - Z.of_N e else Z.of_N e)%Z
      | _ => None
      end
    else None
  end.

(** [number ::= [digitpart] "." digitpart | digitpart ["."]], then the
    exponent. *)
Definition floatnumber (neg : bool) (s : pystr) : option pyfloat :=
  match digitpart s with
  | Some (i, _, r) =>
    match r with
    | 46 :: r' =>
      match digitpart r' with
      | Some (f, n, r'') =>
        e ← exponent_of r'';
        Some (Finite neg (i * 10 ^ N.of_nat n + f) (e - Z.of_nat n))
      | None => e ← exponent_of r'; Some (Finite neg i e)
      end
    | _ => e ← exponent_of r; Some (Finite neg i e)
    end
  | None =>
    match s with
    | 46 :: r' =>
      match digitpart r' with
      | Some (f, n, r'') =>
        e ← exponent_of r''; Some (Finite neg f (e - Z.of_nat n))
      | None => None
      end
    | _ => None
    end
  end.

Definition lower (c : N) : N := if in_range 65 90 c then c + 32 else c.

(** [float(s)] on a [str] of ASCII characters: surrounding white space is
    dropped; [inf], [infinity] and [nan] are read in any case. [None] is
    [ValueError]. Digits outside ASCII, which Python also reads, are not
    covered. *)
Definition float_of_str (s : pystr) : option pyfloat :=
  let '(neg, t) := sign_of (strip s) in
  let w := map lower t in
  if bool_decide (w = u "inf") || bool_decide (w = u "infinity")
  then Some (Infinite neg)
  else if bool_decide (w = u "nan") then Some Nan
  else floatnumber neg t.

(** ** The parts of a packet, in the words of the specification *)

(** The text before the first [sep]: all of [s] when it has no [sep]. *)
Fixpoint before_first (sep : N) (s : pystr) : pystr :=
  match s with
  | [] => []
  | c :: t => if c =? sep then [] else c :: before_first sep t
  end.

(** The text after the first [sep], when there is one. *)
Fixpoint after_first (sep : N) (s : pystr) : option pystr :=
  match s with
  | [] => None
  | c :: t => if c =? sep then Some t else after_first sep t
  end.

(** The text after the last [sep]: all of [s] when it has no [sep]. *)
Fixpoint after_last (sep : N) (s : pystr) : pystr :=
  match s with
  | [] => []
  | c :: t =>
    if contains [sep] t then after_last sep t
    else if c =? sep then t else s
  end.

(** How many times [sep] occurs in [s]. *)
Definition count (sep : N) (s : pystr) : nat :=
  length (filter (λ c, c = sep) s).

(** What a parsed packet says besides its raw text, and what it says of
    the channels. *)
Definition without_raw {float} (p : parsed float)
  : pystr * gmap pystr (option float) * pystr * bool :=
  (serial p, channel_data p, checksum p, is_end_marker p).

Definition fields_of {float} (p : parsed float)
  : pystr * gmap pystr (option float) * bool :=
  (serial p, channel_data p, is_end_marker p).

Definition data_of {float} (p : parsed float)
  : gmap pystr (option float) * bool :=
  (channel_data p, is_end_marker p).

(** ** Packets as a device writes them *)

(** [sep.join(l)] *)
Fixpoint join (sep : N) (l : list pystr) : pystr :=
  match l with
  | [] => []
  | x :: l' =>
    match l' with
    | [] => x
    | _ :: _ => x ++ sep :: join sep l'
    end
  end.

(** The token [channel_num=value] of an assignment. *)
Definition token_of (a : pystr * pystr) : pystr := a.1 ++ c_eq :: a.2.

(** The text [serial<sendVal k1=v1;...;kn=vn>chk]. *)
Definition wire_packet (serial : pystr) (assignments : list (pystr * pystr))
    (chk : pystr) : pystr :=
  serial ++ c_lt :: (sendVal ++ 32 :: join c_semi (map token_of assignments))
         ++ c_gt :: chk.

(** No [<], [>], [;] or [=]. *)
Definition plain (s : pystr) : bool :=
  forallb (λ c, negb (c =? c_lt) && negb (c =? c_gt) && negb (c =? c_semi)
                && negb (c =? c_eq)) s.

(** A channel number and a value text without separators and without
    white space around the token. *)
Definition assignment_ok (a : pystr * pystr) : bool :=
  plain a.1 && plain a.2
  && bool_decide (lstrip a.1 = a.1) && bool_decide (rstrip a.2 = a.2).

(** What lines 78-83 do to the channels for one assignment. *)
Definition assign {float} (py_float : pystr -> option float)
    (d : gmap pystr (option float)) (a : pystr * pystr)
  : gmap pystr (option float) :=
  if decide (strip a.2 = s_NaN) then <[a.1 := None]> d
  else match py_float a.2 with
       | Some x => <[a.1 := Some x]> d
       | None => d
       end.

(** ** The merge, in the words of the specification *)

(** The key-wise last-write-wins merge of a list of channel maps, taken in
    arrival order: the value of a key is its value in the last map that has
    the key, and a key that no map has is absent. *)
Fixpoint last_write_wins {V : Type}
    (k : pystr) (maps : list (gmap pystr V)) : option V :=
  match maps with
  | [] => None
  | m :: rest =>
    match last_write_wins k rest with
    | Some v => Some v
    | None => m !! k
    end
  end.

(** The keys of the inner dict of a device are 0, 1, ..., in this order. *)
Definition dense {V : Type} (d : pydict nat V) : Prop :=
  dict_keys d = seq 0 (length d).

(** Every inner dict of the buffer is dense: [len(d)] is then a new key,
    and [d[len(d)] = parsed] appends. *)
Definition all_dense {float} (self : IoTUDPServer float) : Prop :=
  ∀ D d, packet_buffer self !! D = Some d → dense d.

(** ** What a device sees of the server *)

(** The pending packets of device [D] and the readings saved for it. *)
Definition device_view {float} (D : pystr) (self : IoTUDPServer float)
  : option (pydict nat (parsed float)) * list (reading float) :=
  (packet_buffer self !! D,
   filter (λ r, r_serial r = D) (saved self)).

(** Every raw text and every channel value of the reading [r] comes from a
    packet of [ps] that bears the serial of [r]. *)
Definition from_own_device {float} (ps : list (parsed float)) (r : reading float)
  : Prop :=
  (∀ raw, raw ∈ r_raw_packets r →
     ∃ q, q ∈ ps ∧ serial q = r_serial r ∧ raw_packet q = raw)
  ∧ (∀ k v, r_channel_data r !! k = Some v →
     ∃ q, q ∈ ps ∧ serial q = r_serial r ∧ channel_data q !! k = Some v).

(** Every packet pending under a serial bears this serial and is one of
    [ps]. *)
Definition buffer_owned {float} (ps : list (parsed float))
    (self : IoTUDPServer float) : Prop :=
  ∀ D d q, packet_buffer self !! D = Some d → q ∈ dict_values d →
           serial q = D ∧ q ∈ ps.

(** ** The loop as a whole *)

(** The packets that the loop parses out of the datagrams it receives,
    each cut to [n] bytes, in arrival order. *)
Definition received {float} (py_float : pystr -> option float) (n : nat)
    (datagrams : list (list byte)) : list (parsed float) :=
  omap (λ dg, match (parse_packet_try py_float (take n dg)).2 with
              | inr p => Some p
              | inl _ => None
              end) datagrams.

(** The raw texts of device [D] that the server holds: those of its saved
    readings, oldest first, then those of its pending packets. *)
Definition history {float} (D : pystr) (self : IoTUDPServer float) : list pystr :=
  concat (map r_raw_packets (filter (λ r, r_serial r = D) (saved self)))
  ++ map raw_packet (dict_values (default [] (packet_buffer self !! D))).

(** Every pending entry holds at least one packet, and only data packets
    of its serial. *)
Definition pending_are_data {float} (self : IoTUDPServer float) : Prop :=
  ∀ D d, packet_buffer self !! D = Some d →
         d ≠ [] ∧ ∀ q, q ∈ dict_values d → serial q = D ∧ is_end_marker q = false.

(** The packet with another check sum. *)
Definition with_checksum {float} (c : pystr) (p : parsed float) : parsed float :=
  {| serial := serial p; channel_data := channel_data p; checksum := c;
     raw_packet := raw_packet p; is_end_marker := is_end_marker p |}.

(** The server with the check sum [c] in all its pending packets. *)
Definition with_checksums {float} (c : pystr) (self : IoTUDPServer float)
  : IoTUDPServer float :=
  mk_server (buffer_size self)
    (map (λ kv, (kv.1, with_checksum c kv.2)) <$> packet_buffer self)
    (log self) (saved self).

(** ** The CSV file *)

(** A cell of a row handed to [writer.writerow]: a text or a float. *)
Inductive cell (float : Type) : Type :=
| Text (s : pystr)
| Number (x : float).
Arguments Text {float}.
Arguments Number {float}.

Fixpoint uint_codes (d : Decimal.uint) : pystr :=
  match d with
  | Decimal.Nil => []
  | Decimal.D0 d => 48 :: uint_codes d
  | Decimal.D1 d => 49 :: uint_codes d
  | Decimal.D2 d => 50 :: uint_codes d
  | Decimal.D3 d => 51 :: uint_codes d
  | Decimal.D4 d => 52 :: uint_codes d
  | Decimal.D5 d => 53 :: uint_codes d
  | Decimal.D6 d => 54 :: uint_codes d
  | Decimal.D7 d => 55 :: uint_codes d
  | Decimal.D8 d => 56 :: uint_codes d
  | Decimal.D9 d => 57 :: uint_codes d
  end.

(** [str(ch)] for an [int]: its decimal digits, after [-] when negative. *)
Definition str_of_int (z : Z) : pystr :=
  match Z.to_int z with
  | Decimal.Pos d => uint_codes d
  | Decimal.Neg d => 45 :: uint_codes d
  end.

(** The exceptions raised while the rows are built. *)
Inductive csv_exn : Set :=
| CsvValueError   (* int(k), lines 130 and 140 *)
| CsvKeyError.    (* channel_data[str(ch)], line 141 *)

Section Csv.
Context {float : Type}.

(** [int(k)]: [None] when it raises [ValueError]. *)
Variable py_int : pystr -> option Z.

(** [sorted(int(k) for k in channel_data.keys())]: [None] when some
    [int(k)] raises. *)
Definition sorted_channels (channel_data : gmap pystr (option float))
  : option (list Z) :=
  merge_sort Z.le <$> mapM py_int (map_to_list channel_data).*1.

(** Line 142: [value if value is not None else 'NaN']. *)
Definition cell_of (value : option float) : cell float :=
  match value with
  | Some x => Number x
  | None => Text s_NaN
  end.

(** Line 132: the header row. *)
Definition header (channels : list Z) : list (cell float) :=
  Text (u "Timestamp") :: map (λ ch, Text (u "Channel_" ++ str_of_int ch)) channels.

(** Lines 140-142: the values of the row; [None] when some
    [channel_data[str(ch)]] raises [KeyError]. *)
Definition row_values (channel_data : gmap pystr (option float))
    (channels : list Z) : option (list (cell float)) :=
  mapM (λ ch, cell_of <$> channel_data !! str_of_int ch) channels.

(** [write_to_csv], lines 127-144, once the file is open for appending:
    the rows written to it, and the exception that ends the writing, if
    any. [file_exists] is what [filename.exists()] gave, and [timestamp]
    is the text of the first column; the serial only names the file. *)
Definition write_to_csv (file_exists : bool) (timestamp : pystr)
    (channel_data : gmap pystr (option float))
  : list (list (cell float)) * option csv_exn :=
  match (if file_exists then Some []
         else (λ channels, [header channels]) <$> sorted_channels channel_data) with
  | None => ([], Some CsvValueError)
  | Some written =>
    match sorted_channels channel_data with
    | None => (written, Some CsvValueError)
    | Some channels =>
      match row_values channel_data channels with
      | None => (written, Some CsvKeyError)
      | Some values => (written ++ [Text timestamp :: values], None)
      end
    end
  end.
End Csv.

(** [int(s)] on a [str] of ASCII characters: surrounding white space is
    dropped, then an optional sign and decimal digits, with single
    underscores between digits. [None] is [ValueError]. Digits outside
    ASCII, which Python also reads, are not covered. *)
Definition int_of_str (s : pystr) : option Z :=
  let '(neg, t) := sign_of (strip s) in
  match digitpart t with
  | Some (n, _, []) => Some (if neg then - Z.of_N n else Z.of_N n)%Z
  | _ => None
  end.

(** ** Packets for the examples *)

Definition dev1_data1 : parsed pyfloat :=
  {| serial := u "DEV1";
     channel_data := {[ u "0" := Some (Finite false 235 (-1)); u "1" := None ]};
     checksum := u "CHK";
     raw_packet := u "DEV1<sendVal 0=23.5;1=NaN>CHK";
     is_end_marker := false |}.

Definition dev1_data2 : parsed pyfloat :=
  {| serial := u "DEV1";
     channel_data := {[ u "1" := Some (Finite false 4 0);
                        u "2" := Some (Finite false 191 (-1)) ]};
     checksum := u "CHK";
     raw_packet := u "DEV1<sendVal 1=4;2=19.1>CHK";
     is_end_marker := false |}.

Definition dev1_end : parsed pyfloat :=
  {| serial := u "DEV1"; channel_data := ∅; checksum := u "CHK";
     raw_packet := u "DEV1<sendVal >CHK"; is_end_marker := true |}.

Definition dev2_data : parsed pyfloat :=
  {| serial := u "DEV2";
     channel_data := {[ u "0" := Some (Finite false 7 0) ]};
     checksum := u "X";
     raw_packet := u "DEV2<sendVal 0=7>X";
     is_end_marker := false |}.

Definition dev2_end : parsed pyfloat :=
  {| serial := u "DEV2"; channel_data := ∅; checksum := u "X";
     raw_packet := u "DEV2<sendVal>X"; is_end_marker := true |}.

(** * Examples *)

Example split_ex1 : split c_lt (u "a<b<c") = [u "a"; u "b"; u "c"].
Proof. reflexivity. Qed.

Example split_ex2 : split c_lt [] = [[]].
Proof. reflexivity. Qed.

Example remove_ex : remove_all sendVal (u "xsendValsendsendValVal y") = u "xsendVal y".
Proof. reflexivity. Qed.

Example strip_ex : strip (u "  a b  ") = u "a b".
Proof. reflexivity. Qed.

Example utf8_ex1 : utf8_decode [x3c; xc2; xa0; xe2; x82; xac] = Some [60; 0xA0; 0x20AC].
Proof. reflexivity. Qed.

Example utf8_ex2 : utf8_decode [x3c; xff] = None.
Proof. reflexivity. Qed.

Example utf8_ex3 : utf8_decode [xed; xa0; x80] = None.
Proof. reflexivity. Qed.

Example utf8_ex4 : utf8_decode [xf0; x9f; x98; x80] = Some [0x1F600].
Proof. reflexivity. Qed.

Example float_ex1 : float_of_str (u "23.5") = Some (Finite false 235 (-1)).
Proof. reflexivity. Qed.

Example float_ex2 : float_of_str (u " -1_0.0_1e1_0 ") = Some (Finite true 1001 8).
Proof. reflexivity. Qed.

Example float_ex3 :
  map float_of_str [u "1=2"; u "abc"; u "+-1"; u "0x10"; u "1__0"; u "_1"; u "1_";
                    u "1e"; u "1e+"; u "infinit"; u "1 2"; u ".e3"; u ".";
                    u "1e_1"; u "1_e1"; u "1._5"; u "1_.5"; []]
  = repeat None 18.
Proof. reflexivity. Qed.

Example float_ex4 :
  map float_of_str [u "1"; u "5."; u ".5"; u "1.e3"; u "nAn"; u "-Infinity"; u "+nan"; u "1e5"]
  = [Some (Finite false 1 0); Some (Finite false 5 0); Some (Finite false 5 (-1));
     Some (Finite false 1 3); Some Nan; Some (Infinite true); Some Nan;
     Some (Finite false 1 5)].
Proof. reflexivity. Qed.

(** The example of the specification: a data packet and its end marker. *)
Example parse_ex1 :
  (parse_packet float_of_str (new_server pyfloat)
     (b "DEV1<sendVal 0=23.5;1=NaN;2=19.1>CHK")).2
  = Some {| serial := u "DEV1";
            channel_data := {[ u "0" := Some (Finite false 235 (-1)); u "1" := None;
                               u "2" := Some (Finite false 191 (-1)) ]};
            checksum := u "CHK";
            raw_packet := u "DEV1<sendVal 0=23.5;1=NaN;2=19.1>CHK";
            is_end_marker := false |}.
Proof. reflexivity. Qed.

Example parse_ex2 :
  (parse_packet float_of_str (new_server pyfloat) (b "DEV1<sendVal >CHK")).2
  = Some {| serial := u "DEV1"; channel_data := ∅; checksum := u "CHK";
            raw_packet := u "DEV1<sendVal >CHK"; is_end_marker := true |}.
Proof. reflexivity. Qed.

Example start_ex :
  saved (start float_of_str (new_server pyfloat)
           [b "DEV1<sendVal 0=23.5;1=NaN;2=19.1>CHK"; b "DEV1<sendVal >CHK"])
  = [mk_reading (u "DEV1")
       {[ u "0" := Some (Finite false 235 (-1)); u "1" := None;
          u "2" := Some (Finite false 191 (-1)) ]}
       [u "DEV1<sendVal 0=23.5;1=NaN;2=19.1>CHK"]].
Proof. vm_compute. reflexivity. Qed.

Example packets_ex :
  map (λ bs, (parse_packet float_of_str (new_server pyfloat) bs).2)
      [b "DEV1<sendVal 0=23.5;1=NaN>CHK"; b "DEV1<sendVal 1=4;2=19.1>CHK";
       b "DEV1<sendVal >CHK"; b "DEV2<sendVal 0=7>X"; b "DEV2<sendVal>X"]
  = [Some dev1_data1; Some dev1_data2; Some dev1_end; Some dev2_data; Some dev2_end].
Proof. reflexivity. Qed.

Example int_ex :
  map int_of_str [u "12"; u " 012 "; u "-5"; u "+1_0"; u "1.5"; u "a"; u "- 5"; []]
  = [Some 12; Some 12; Some (-5); Some 10; None; None; None; None]%Z.
Proof. reflexivity. Qed.

Example str_of_int_ex :
  map str_of_int [0; 7; 120; -5]%Z = [u "0"; u "7"; u "120"; u "-5"].
Proof. reflexivity. Qed.

Example write_to_csv_ex :
  write_to_csv int_of_str false (u "2024-01-01 00:00:00.000")
    ({[ u "10" := Some (Finite false 1 0); u "2" := None;
        u "0" := Some (Finite false 235 (-1)) ]} : gmap pystr (option pyfloat))
  = ([ [Text (u "Timestamp"); Text (u "Channel_0"); Text (u "Channel_2");
        Text (u "Channel_10")];
       [Text (u "2024-01-01 00:00:00.000"); Number (Finite false 235 (-1));
        Text (u "NaN"); Number (Finite false 1 0)] ], None).
Proof. vm_compute. reflexivity. Qed.

Example write_to_csv_ex2 :
  write_to_csv int_of_str false (u "t")
    ({[ u "temp" := None ]} : gmap pystr (option pyfloat))
  = ([], Some CsvValueError).
Proof. vm_compute. reflexivity. Qed.

Example write_to_csv_ex3 :
  write_to_csv int_of_str false (u "t")
    ({[ u "01" := None ]} : gmap pystr (option pyfloat))
  = ([[Text (u "Timestamp"); Text (u "Channel_1")]], Some CsvKeyError).
Proof. vm_compute. reflexivity. Qed.

(** * Properties *)

(** ** Text *)

Lemma contains_char (c : N) (s : pystr) : contains [c] s = true ↔ c ∈ s.
Proof.
  induction s as [|x s IH]; simpl.
  - split; [discriminate | by intros ?%elem_of_nil].
  - rewrite andb_true_r, orb_true_iff, IH, elem_of_cons, N.eqb_eq. tauto.
Qed.

Lemma contains_char_false (c : N) (s : pystr) : contains [c] s = false ↔ c ∉ s.
Proof. rewrite <- contains_char. by destruct (contains [c] s). Qed.

Lemma split_nonempty (sep : N) (s : pystr) : split sep s ≠ [].
Proof.
  destruct s as [|c t]; simpl; [done|].
  destruct (c =? sep); [done|]. by destruct (split sep t).
Qed.

Lemma split_notin (sep : N) (s : pystr) : sep ∉ s → split sep s = [s].
Proof.
  induction s as [|c t IH]; simpl; [done|].
  intros [Hc Ht]%not_elem_of_cons.
  destruct (N.eqb_spec c sep); [congruence|]. by rewrite IH.
Qed.

Lemma split_app (sep : N) (s r : pystr) :
  sep ∉ s → split sep (s ++ sep :: r) = s :: split sep r.
Proof.
  induction s as [|c t IH]; simpl.
  - intros _. by rewrite N.eqb_refl.
  - intros [Hc Ht]%not_elem_of_cons.
    destruct (N.eqb_spec c sep); [congruence|]. by rewrite IH.
Qed.

Lemma split_snoc (sep : N) (s k : pystr) :
  sep ∉ k → ∃ q qs, split sep (s ++ sep :: k) = q :: qs ++ [k].
Proof.
  intros Hk. induction s as [|c t (q & qs & IH)]; simpl.
  - exists [], []. by rewrite N.eqb_refl, (split_notin _ _ Hk).
  - rewrite IH. destruct (c =? sep).
    + by exists [], (q :: qs).
    + by exists (c :: q), qs.
Qed.

Lemma split_last (sep : N) (s k : pystr) :
  sep ∉ k → last (split sep (s ++ sep :: k)) = Some k.
Proof.
  intros Hk. destruct (split_snoc sep s k Hk) as (q & qs & ->).
  by rewrite app_comm_cons, last_snoc.
Qed.

(** ** The monad and indexing *)

Lemma bind_ret {A B} (a : A) (f : A → M B) : mret a ≫= f = f a.
Proof. unfold mbind, M_bind, mret, M_ret, bind, ret. by destruct (f a). Qed.

Lemma bind_raise {A B} (e : exn) (f : A → M B) : raise e ≫= f = raise e.
Proof. done. Qed.

Lemma getitem_0 {A} (x : A) (l : list A) : getitem (x :: l) 0 = mret x.
Proof. done. Qed.

Lemma getitem_1 {A} (x y : A) (l : list A) : getitem (x :: y :: l) 1 = mret y.
Proof. done. Qed.

Lemma getitem_1_singleton {A} (x : A) : getitem [x] 1 = raise IndexError.
Proof. done. Qed.

Lemma getitem_last {A} (l : list A) (x : A) :
  last l = Some x → getitem l (-1) = mret x.
Proof.
  intros Hl. unfold getitem.
  assert (length l ≠ 0%nat) by (by destruct l).
  replace (-1 <? 0)%Z with true by done.
  destruct (Z.ltb_spec (-1 + Z.of_nat (length l)) 0); [lia|].
  replace (Z.to_nat (-1 + Z.of_nat (length l))) with (Nat.pred (length l)) by lia.
  by rewrite <- last_lookup, Hl.
Qed.

(** ** The inner dict of a device *)

Lemma dict_set_fresh {V} (d : pydict nat V) (k : nat) (v : V) :
  k ∉ dict_keys d → dict_set k v d = d ++ [(k, v)].
Proof.
  induction d as [|[k' v'] d IH]; simpl; [done|].
  intros [Hk Hd]%not_elem_of_cons.
  rewrite decide_False by done. by rewrite IH.
Qed.

Lemma dense_nil {V} : dense (@nil (nat * V)).
Proof. done. Qed.

Lemma dense_set {V} (d : pydict nat V) (v : V) :
  dense d →
  dict_set (length d) v d = d ++ [(length d, v)]
  ∧ dense (d ++ [(length d, v)]).
Proof.
  unfold dense, dict_keys. intros Hd. split.
  - apply dict_set_fresh. unfold dict_keys. rewrite Hd, elem_of_seq. lia.
  - rewrite map_app, length_app, Hd. simpl.
    by rewrite Nat.add_1_r, seq_S.
Qed.

(** ** The merge *)

Section Buffer.
Context {float : Type}.
Implicit Types (self : IoTUDPServer float) (p t : parsed float)
  (fs ps : list (parsed float)) (D : pystr).

Lemma combine_from fs (c : gmap pystr (option float)) (r : list pystr) :
  let res := fold_left
    (fun acc packet_info =>
       (channel_data packet_info ∪ acc.1, acc.2 ++ [raw_packet packet_info]))
    fs (c, r) in
  res.2 = r ++ map raw_packet fs
  ∧ ∀ k, res.1 !! k = match last_write_wins k (map channel_data fs) with
                       | Some v => Some v
                       | None => c !! k
                       end.
Proof.
  revert c r. induction fs as [|p fs IH]; intros c r; simpl.
  - by rewrite app_nil_r.
  - destruct (IH (channel_data p ∪ c) (r ++ [raw_packet p])) as [IH1 IH2].
    split; [by rewrite IH1, <- app_assoc|].
    intros k. rewrite IH2.
    destruct (last_write_wins k (map channel_data fs)); [done|].
    rewrite lookup_union. by destruct (channel_data p !! k), (c !! k).
Qed.

Lemma combine_raw fs : (combine fs).2 = map raw_packet fs.
Proof. apply (combine_from fs ∅ []). Qed.

Lemma combine_channels fs (k : pystr) :
  (combine fs).1 !! k = last_write_wins k (map channel_data fs).
Proof.
  unfold combine. rewrite (proj2 (combine_from fs ∅ [])).
  by destruct (last_write_wins k (map channel_data fs)).
Qed.

(** ** One turn of the loop *)

Lemma dispatch_data self p :
  is_end_marker p = false →
  dispatch self p
  = let d := default [] (packet_buffer self !! serial p) in
    mk_server (buffer_size self)
      (<[serial p := dict_set (length d) p d]> (packet_buffer self))
      (log self) (saved self).
Proof.
  intros Hp. unfold dispatch, defaultdict_getitem. rewrite Hp.
  destruct (packet_buffer self !! serial p) as [d|] eqn:E; simpl.
  - by rewrite E.
  - by rewrite lookup_insert_eq, insert_insert_eq.
Qed.

Lemma dispatch_end_pending self p (d : pydict nat (parsed float)) :
  is_end_marker p = true →
  packet_buffer self !! serial p = Some d →
  dispatch self p
  = mk_server (buffer_size self) (delete (serial p) (packet_buffer self))
      (log self)
      (saved self ++ [mk_reading (serial p) (combine (dict_values d)).1
                        (combine (dict_values d)).2]).
Proof.
  intros Hp E. unfold dispatch, process_complete_dataset, defaultdict_getitem.
  rewrite Hp, E. by destruct (combine (dict_values d)).
Qed.

Lemma dispatch_end_none self p :
  is_end_marker p = true →
  packet_buffer self !! serial p = None →
  dispatch self p = self.
Proof. intros Hp E. unfold dispatch. by rewrite Hp, E. Qed.

(** Data packets of one device pile up under its serial, in arrival
    order, and nothing else changes. *)
Lemma dispatch_all_data self D fs (d : pydict nat (parsed float)) :
  Forall (λ p, serial p = D ∧ is_end_marker p = false) fs →
  packet_buffer self !! D = Some d → dense d →
  ∃ d', dispatch_all self fs
        = mk_server (buffer_size self) (<[D := d']> (packet_buffer self))
            (log self) (saved self)
        ∧ dict_values d' = dict_values d ++ fs ∧ dense d'.
Proof.
  intros Hfs. revert self d.
  induction Hfs as [|p fs [HD Hp] _ IH]; intros self d E Hd; simpl.
  - exists d. rewrite app_nil_r, insert_id by done. by destruct self.
  - rewrite (dispatch_data _ _ Hp), HD, E. simpl.
    destruct (dense_set d p Hd) as [-> Hd'].
    edestruct (IH (mk_server (buffer_size self)
                    (<[D := d ++ [(length d, p)]]> (packet_buffer self))
                    (log self) (saved self))) as (d' & -> & Hv & Hd'');
      [simpl; apply lookup_insert_eq | done |].
    exists d'. simpl. rewrite insert_insert_eq. split; [done|]. split; [|done].
    rewrite Hv. unfold dict_values. rewrite map_app, <- app_assoc. done.
Qed.

(** The same from a state in which the device has nothing pending. *)
Lemma dispatch_all_data_new self D p fs :
  Forall (λ p, serial p = D ∧ is_end_marker p = false) (p :: fs) →
  packet_buffer self !! D = None →
  ∃ d', dispatch_all self (p :: fs)
        = mk_server (buffer_size self) (<[D := d']> (packet_buffer self))
            (log self) (saved self)
        ∧ dict_values d' = p :: fs ∧ dense d'.
Proof.
  intros [[HD Hp] Hfs]%Forall_cons E. simpl.
  rewrite (dispatch_data _ _ Hp), HD, E. simpl.
  edestruct (dispatch_all_data
               (mk_server (buffer_size self)
                  (<[D := [(0%nat, p)]]> (packet_buffer self))
                  (log self) (saved self)) D fs [(0%nat, p)])
    as (d' & -> & Hv & Hd'); [done | simpl; apply lookup_insert_eq | done |].
  exists d'. simpl. by rewrite insert_insert_eq.
Qed.

(** The receive loop keeps the inner dicts dense. *)
Lemma dispatch_dense self p : all_dense self → all_dense (dispatch self p).
Proof.
  intros Hd. destruct (is_end_marker p) eqn:Hp.
  - destruct (packet_buffer self !! serial p) as [d|] eqn:E.
    + rewrite (dispatch_end_pending _ _ d Hp E). unfold all_dense. simpl.
      intros D d' [_ Hd']%lookup_delete_Some. by apply (Hd D).
    + by rewrite (dispatch_end_none _ _ Hp E).
  - rewrite (dispatch_data _ _ Hp). unfold all_dense. simpl.
    intros D d'. rewrite lookup_insert. case_decide; [|by apply Hd].
    intros [= <-].
    assert (dense (default [] (packet_buffer self !! serial p))) as Hdef.
    { destruct (packet_buffer self !! serial p) as [d|] eqn:E; [|done].
      by apply (Hd (serial p)). }
    destruct (dense_set _ p Hdef) as [-> ?]. done.
Qed.

Lemma dispatch_all_dense self ps : all_dense self → all_dense (dispatch_all self ps).
Proof.
  revert self. induction ps as [|p ps IH]; intros self Hd; [done|].
  simpl. by apply IH, dispatch_dense.
Qed.

Lemma new_server_dense : all_dense (new_server float).
Proof. intros D d. unfold new_server. simpl. by rewrite lookup_empty. Qed.

(** A transmission from a device with nothing pending: the data packets,
    then the end marker. *)
Lemma transmission_completes self D fs t :
  packet_buffer self !! D = None →
  fs ≠ [] →
  Forall (λ p, serial p = D ∧ is_end_marker p = false) fs →
  serial t = D → is_end_marker t = true →
  dispatch_all self (fs ++ [t])
  = mk_server (buffer_size self) (packet_buffer self) (log self)
      (saved self ++ [mk_reading D (combine fs).1 (map raw_packet fs)]).
Proof.
  intros E Hne Hfs HD Ht. destruct fs as [|p fs]; [done|].
  unfold dispatch_all at 1. rewrite fold_left_app.
  destruct (dispatch_all_data_new self D p fs Hfs E) as (d' & Hrun & Hv & _).
  unfold dispatch_all in Hrun. rewrite Hrun. simpl fold_left.
  rewrite (dispatch_end_pending _ t d' Ht) by (rewrite HD; apply lookup_insert_eq).
  simpl. rewrite HD, Hv, combine_raw, delete_insert_id by done. done.
Qed.
End Buffer.

(** ** The reassembly buffer *)

(** C1. From a state in which device [D] has nothing pending, a sequence of
    one or more data packets of [D] followed by an end marker of [D] saves
    exactly one reading: its channels are the key-wise last-write-wins
    merge of the channel maps of the data packets in arrival order, its raw
    packets are their raw texts in arrival order, without the text of the
    end marker, and afterwards [D] has nothing pending. *)
Theorem C1_transmission_yields_one_reading {float}
    (self : IoTUDPServer float) (D : pystr) (fs : list (parsed float))
    (t : parsed float) :
  packet_buffer self !! D = None →
  fs ≠ [] →
  Forall (λ p, serial p = D ∧ is_end_marker p = false) fs →
  serial t = D → is_end_marker t = true →
  ∃ r, saved (dispatch_all self (fs ++ [t])) = saved self ++ [r]
       ∧ r_serial r = D
       ∧ (∀ k, r_channel_data r !! k = last_write_wins k (map channel_data fs))
       ∧ r_raw_packets r = map raw_packet fs
       ∧ packet_buffer (dispatch_all self (fs ++ [t])) !! D = None.
Proof.
  intros E Hne Hfs HD Ht.
  rewrite (transmission_completes self D fs t E Hne Hfs HD Ht). simpl.
  eexists. split; [reflexivity|]. simpl.
  repeat split; [|done]. apply combine_channels.
Qed.

Lemma C1_witness :
  ∃ r, saved (dispatch_all (new_server pyfloat) ([dev1_data1; dev1_data2] ++ [dev1_end]))
       = saved (new_server pyfloat) ++ [r]
       ∧ r_serial r = u "DEV1"
       ∧ (∀ k, r_channel_data r !! k
               = last_write_wins k (map channel_data [dev1_data1; dev1_data2]))
       ∧ r_raw_packets r = map raw_packet [dev1_data1; dev1_data2]
       ∧ packet_buffer (dispatch_all (new_server pyfloat)
                          ([dev1_data1; dev1_data2] ++ [dev1_end])) !! u "DEV1" = None.
Proof.
  apply (C1_transmission_yields_one_reading (new_server pyfloat) (u "DEV1")
           [dev1_data1; dev1_data2] dev1_end).
  - reflexivity.
  - discriminate.
  - repeat constructor.
  - reflexivity.
  - reflexivity.
Defined.

(** C6. An end marker whose serial has nothing pending changes nothing:
    no reading is saved and the packet buffer is the same, with no entry
    created for the serial. *)
Theorem C6_end_marker_without_pending {float}
    (self : IoTUDPServer float) (p : parsed float) :
  is_end_marker p = true →
  packet_buffer self !! serial p = None →
  dispatch self p = self
  ∧ saved (dispatch self p) = saved self
  ∧ packet_buffer (dispatch self p) = packet_buffer self
  ∧ packet_buffer (dispatch self p) !! serial p = None.
Proof.
  intros Hp E. rewrite (dispatch_end_none self p Hp E). done.
Qed.

Lemma C6_witness :
  let self := dispatch (new_server pyfloat) dev2_data in
  dispatch self dev1_end = self
  ∧ saved (dispatch self dev1_end) = saved self
  ∧ packet_buffer (dispatch self dev1_end) = packet_buffer self
  ∧ packet_buffer (dispatch self dev1_end) !! serial dev1_end = None.
Proof.
  apply (C6_end_marker_without_pending
           (dispatch (new_server pyfloat) dev2_data) dev1_end).
  - reflexivity.
  - vm_compute. reflexivity.
Defined.

(** ** Isolation of the devices *)

Section Isolation.
Context {float : Type}.
Implicit Types (self : IoTUDPServer float) (p q : parsed float)
  (ps : list (parsed float)) (D : pystr).

Lemma dispatch_frame self p D :
  D ≠ serial p →
  packet_buffer (dispatch self p) !! D = packet_buffer self !! D.
Proof.
  intros HD. destruct (is_end_marker p) eqn:Hp.
  - destruct (packet_buffer self !! serial p) as [d|] eqn:E.
    + rewrite (dispatch_end_pending _ _ d Hp E). simpl.
      by rewrite lookup_delete_ne.
    + by rewrite (dispatch_end_none _ _ Hp E).
  - rewrite (dispatch_data _ _ Hp). simpl. by rewrite lookup_insert_ne.
Qed.

Lemma dispatch_saved self p :
  saved (dispatch self p) = saved self
  ∨ ∃ d, is_end_marker p = true ∧ packet_buffer self !! serial p = Some d
         ∧ saved (dispatch self p)
           = saved self ++ [mk_reading (serial p) (combine (dict_values d)).1
                              (combine (dict_values d)).2].
Proof.
  destruct (is_end_marker p) eqn:Hp.
  - destruct (packet_buffer self !! serial p) as [d|] eqn:E.
    + right. exists d. by rewrite (dispatch_end_pending _ _ d Hp E).
    + left. by rewrite (dispatch_end_none _ _ Hp E).
  - left. by rewrite (dispatch_data _ _ Hp).
Qed.

(** A packet of another device leaves the view of [D] as it is. *)
Lemma dispatch_other_view self p D :
  serial p ≠ D → device_view D (dispatch self p) = device_view D self.
Proof.
  intros HD. unfold device_view. f_equal.
  - by apply dispatch_frame.
  - destruct (dispatch_saved self p) as [->|(d & _ & _ & ->)]; [done|].
    rewrite filter_app, filter_cons_False, filter_nil, app_nil_r; done.
Qed.

(** What a packet of [D] does to the view of [D] depends on this view only. *)
Lemma dispatch_same_view self1 self2 p D :
  serial p = D →
  device_view D self1 = device_view D self2 →
  device_view D (dispatch self1 p) = device_view D (dispatch self2 p).
Proof.
  unfold device_view. intros HD [= Hb Hs]. subst D.
  destruct (is_end_marker p) eqn:Hp.
  - destruct (packet_buffer self1 !! serial p) as [d|] eqn:E.
    + rewrite (dispatch_end_pending _ _ d Hp E),
              (dispatch_end_pending self2 _ d Hp) by done. simpl.
      by rewrite !lookup_delete_eq, !filter_app, Hs.
    + rewrite (dispatch_end_none _ _ Hp E), (dispatch_end_none self2 _ Hp) by done.
      by rewrite E, <- Hb, Hs.
  - rewrite !(dispatch_data _ _ Hp). simpl.
    by rewrite !lookup_insert_eq, Hb, Hs.
Qed.

(** The view of [D] after any packets is its view after its own packets. *)
Lemma dispatch_all_view self1 self2 ps D :
  device_view D self1 = device_view D self2 →
  device_view D (dispatch_all self1 ps)
  = device_view D (dispatch_all self2 (filter (λ p, serial p = D) ps)).
Proof.
  revert self1 self2. induction ps as [|p ps IH]; intros self1 self2 Hv; [done|].
  simpl. destruct (decide (serial p = D)) as [HD|HD].
  - rewrite filter_cons_True by done. simpl.
    apply IH. by apply dispatch_same_view.
  - rewrite filter_cons_False by done.
    apply IH. by rewrite dispatch_other_view.
Qed.

Lemma elem_of_dict_set_values {V} (d : pydict nat V) (k : nat) (v x : V) :
  x ∈ dict_values (dict_set k v d) → x = v ∨ x ∈ dict_values d.
Proof.
  unfold dict_values. induction d as [|[k' v'] d IH]; simpl.
  - rewrite list_elem_of_singleton. tauto.
  - destruct (decide (k = k')); simpl; rewrite !elem_of_cons; tauto.
Qed.

Lemma last_write_wins_Some {V} (k : pystr) (maps : list (gmap pystr V)) (v : V) :
  last_write_wins k maps = Some v → ∃ m, m ∈ maps ∧ m !! k = Some v.
Proof.
  induction maps as [|m maps IH]; simpl; [done|].
  destruct (last_write_wins k maps) as [w|].
  - intros [= ->]. destruct IH as (m' & ? & ?); [done|].
    exists m'. split; [apply elem_of_cons; by right | done].
  - intros Hm. exists m. split; [apply elem_of_cons; by left | done].
Qed.

Lemma dispatch_owned ps self p :
  p ∈ ps →
  buffer_owned ps self ∧ Forall (from_own_device ps) (saved self) →
  buffer_owned ps (dispatch self p)
  ∧ Forall (from_own_device ps) (saved (dispatch self p)).
Proof.
  intros Hin [Hown Hsaved]. destruct (is_end_marker p) eqn:Hp.
  - destruct (packet_buffer self !! serial p) as [d|] eqn:E.
    + rewrite (dispatch_end_pending _ _ d Hp E). unfold buffer_owned. simpl. split.
      * intros D d' q [_ Hd']%lookup_delete_Some. by apply Hown.
      * apply Forall_app. split; [done|]. apply Forall_singleton.
        split; simpl.
        -- rewrite combine_raw.
           intros raw (q & <- & Hq%list_elem_of_In)%list_elem_of_In%in_map_iff.
           destruct (Hown _ _ _ E Hq) as [? ?]. by exists q.
        -- intros k v. rewrite combine_channels.
           intros (m & Hin' & Hm)%last_write_wins_Some.
           apply list_elem_of_In, in_map_iff in Hin' as (q & <- & Hq%list_elem_of_In).
           destruct (Hown _ _ _ E Hq) as [? ?]. by exists q.
    + by rewrite (dispatch_end_none _ _ Hp E).
  - rewrite (dispatch_data _ _ Hp). unfold buffer_owned. simpl. split; [|done].
    intros D d q. rewrite lookup_insert. case_decide as HD.
    + intros [= <-] [->|Hq]%elem_of_dict_set_values; [done|].
      destruct (packet_buffer self !! serial p) as [d0|] eqn:E; simpl in Hq.
      * subst D. by apply (Hown _ _ _ E).
      * by apply elem_of_nil in Hq.
    + by apply Hown.
Qed.

Lemma dispatch_all_owned ps qs self :
  qs ⊆ ps →
  buffer_owned ps self ∧ Forall (from_own_device ps) (saved self) →
  buffer_owned ps (dispatch_all self qs)
  ∧ Forall (from_own_device ps) (saved (dispatch_all self qs)).
Proof.
  revert self. induction qs as [|q qs IH]; intros self Hsub Hinv; [done|].
  simpl. apply IH.
  - intros x Hx. apply Hsub, elem_of_cons. by right.
  - apply dispatch_owned; [|done]. apply Hsub, elem_of_cons. by left.
Qed.
End Isolation.

(** C7. For packets that arrive interleaved from two distinct devices:
    a packet never changes what is pending for another serial; the pending
    packets and the readings of each device are what its own packets alone
    would give; from the initial state every reading saved holds only raw
    texts and channel values of packets that bear its serial; and the
    buffer holds at most one pending transmission for a serial, after any
    prefix of the packets. *)
Theorem C7_devices_are_isolated {float}
    (self : IoTUDPServer float) (D1 D2 : pystr) (ps : list (parsed float)) :
  D1 ≠ D2 →
  Forall (λ p, serial p = D1 ∨ serial p = D2) ps →
  packet_buffer self = ∅ → saved self = [] →
  (∀ (s : IoTUDPServer float) p D,
     D ≠ serial p → packet_buffer (dispatch s p) !! D = packet_buffer s !! D)
  ∧ device_view D1 (dispatch_all self ps)
    = device_view D1 (dispatch_all self (filter (λ p, serial p = D1) ps))
  ∧ device_view D2 (dispatch_all self ps)
    = device_view D2 (dispatch_all self (filter (λ p, serial p = D2) ps))
  ∧ Forall (from_own_device ps) (saved (dispatch_all self ps))
  ∧ (∀ qs D d1 d2,
       qs `prefix_of` ps →
       packet_buffer (dispatch_all self qs) !! D = Some d1 →
       packet_buffer (dispatch_all self qs) !! D = Some d2 → d1 = d2).
Proof.
  intros _ _ Hb Hs. split_and!.
  - intros s p D. apply dispatch_frame.
  - by apply dispatch_all_view.
  - by apply dispatch_all_view.
  - apply dispatch_all_owned; [done|]. split.
    + intros D d q. by rewrite Hb, lookup_empty.
    + by rewrite Hs.
  - intros qs D d1 d2 _ H1 H2. congruence.
Qed.

Lemma C7_witness :
  let self := new_server pyfloat in
  let ps := [dev1_data1; dev2_data; dev1_data2; dev2_end; dev1_end] in
  (∀ (s : IoTUDPServer pyfloat) p D,
     D ≠ serial p → packet_buffer (dispatch s p) !! D = packet_buffer s !! D)
  ∧ device_view (u "DEV1") (dispatch_all self ps)
    = device_view (u "DEV1")
        (dispatch_all self (filter (λ p, serial p = u "DEV1") ps))
  ∧ device_view (u "DEV2") (dispatch_all self ps)
    = device_view (u "DEV2")
        (dispatch_all self (filter (λ p, serial p = u "DEV2") ps))
  ∧ Forall (from_own_device ps) (saved (dispatch_all self ps))
  ∧ (∀ qs D d1 d2,
       qs `prefix_of` ps →
       packet_buffer (dispatch_all self qs) !! D = Some d1 →
       packet_buffer (dispatch_all self qs) !! D = Some d2 → d1 = d2).
Proof.
  apply (C7_devices_are_isolated (new_server pyfloat) (u "DEV1") (u "DEV2")
           [dev1_data1; dev2_data; dev1_data2; dev2_end; dev1_end]).
  - discriminate.
  - repeat first [ by apply Forall_nil
                 | apply Forall_cons; split; [(by left) || (by right)|] ].
  - reflexivity.
  - reflexivity.
Defined.

(** ** The components of a packet *)

Lemma split_before_after (sep : N) (s : pystr) :
  split sep s
  = before_first sep s
    :: match after_first sep s with Some r => split sep r | None => [] end.
Proof.
  induction s as [|c t IH]; simpl; [done|].
  destruct (c =? sep); [done|]. by rewrite IH.
Qed.

Lemma after_first_None (sep : N) (s : pystr) :
  after_first sep s = None ↔ sep ∉ s.
Proof.
  induction s as [|c t IH]; simpl.
  - split; [by intros _ ?%elem_of_nil | done].
  - rewrite not_elem_of_cons. destruct (N.eqb_spec c sep).
    + split; [done | intros [? _]; congruence].
    + rewrite IH. split; [intros ?; split; [congruence | done] | by intros [_ ?]].
Qed.

Lemma before_first_notin (sep : N) (s : pystr) : sep ∉ before_first sep s.
Proof.
  induction s as [|c t IH]; simpl; [by intros ?%elem_of_nil|].
  destruct (N.eqb_spec c sep); [by intros ?%elem_of_nil|].
  rewrite not_elem_of_cons. split; [congruence | done].
Qed.

Lemma before_first_id (sep : N) (s : pystr) : sep ∉ s → before_first sep s = s.
Proof.
  induction s as [|c t IH]; simpl; [done|].
  intros [Hc Ht]%not_elem_of_cons.
  destruct (N.eqb_spec c sep); [congruence|]. by rewrite IH.
Qed.

Lemma before_first_app (sep : N) (s r : pystr) :
  sep ∉ s → before_first sep (s ++ sep :: r) = s.
Proof.
  induction s as [|c t IH]; simpl.
  - by rewrite N.eqb_refl.
  - intros [Hc Ht]%not_elem_of_cons.
    destruct (N.eqb_spec c sep); [congruence|]. by rewrite IH.
Qed.

Lemma after_first_app (sep : N) (s r : pystr) :
  sep ∉ s → after_first sep (s ++ sep :: r) = Some r.
Proof.
  induction s as [|c t IH]; simpl.
  - by rewrite N.eqb_refl.
  - intros [Hc Ht]%not_elem_of_cons.
    destruct (N.eqb_spec c sep); [congruence|]. by rewrite IH.
Qed.

Lemma after_last_id (sep : N) (s : pystr) : sep ∉ s → after_last sep s = s.
Proof.
  destruct s as [|c t]; simpl; [done|].
  intros [Hc Ht]%not_elem_of_cons.
  apply contains_char_false in Ht. rewrite Ht.
  by destruct (N.eqb_spec c sep).
Qed.

Lemma after_last_app (sep : N) (s k : pystr) :
  sep ∉ k → after_last sep (s ++ sep :: k) = k.
Proof.
  intros Hk. induction s as [|c t IH]; simpl.
  - rewrite (proj2 (contains_char_false sep k) Hk). by rewrite N.eqb_refl.
  - replace (contains [sep] (t ++ sep :: k)) with true; [done|].
    symmetry. apply contains_char. rewrite elem_of_app, elem_of_cons. auto.
Qed.

Lemma last_split (sep : N) (s : pystr) :
  last (split sep s) = Some (after_last sep s).
Proof.
  induction s as [|c t IH]; [done|].
  simpl. destruct (contains [sep] t) eqn:Ht.
  - assert (∃ q q' qs, split sep t = q :: q' :: qs) as (q & q' & qs & E).
    { rewrite split_before_after. apply contains_char in Ht.
      destruct (after_first sep t) as [r|] eqn:Er.
      - destruct (split sep r) as [|q' qs] eqn:E'; [|by eauto].
        by destruct (split_nonempty sep r).
      - by apply after_first_None in Er. }
    rewrite E in *. by destruct (c =? sep).
  - apply contains_char_false in Ht. rewrite (split_notin _ _ Ht).
    by destruct (c =? sep).
Qed.

Lemma getitem_split_0 (sep : N) (s : pystr) :
  getitem (split sep s) 0 = mret (before_first sep s).
Proof. by rewrite split_before_after. Qed.

Lemma getitem_split_last (sep : N) (s : pystr) :
  getitem (split sep s) (-1) = mret (after_last sep s).
Proof. apply getitem_last, last_split. Qed.

Section Decoder.
Context {float : Type} (py_float : pystr → option float).
Implicit Types (self : IoTUDPServer float) (packet_str content : pystr).

(** Line 65: the text between the first [<] and the [<] or [>] that comes
    next; [IndexError] when there is no [<]. *)
Lemma content_of_eq packet_str :
  content_of packet_str
  = match after_first c_lt packet_str with
    | Some r => mret (before_first c_gt (before_first c_lt r))
    | None => raise IndexError
    end.
Proof.
  unfold content_of. rewrite split_before_after.
  destruct (after_first c_lt packet_str) as [r|]; [|done].
  rewrite (split_before_after c_lt r), getitem_1, bind_ret.
  apply getitem_split_0.
Qed.

(** Lines 64-91 in terms of the three components. *)
Lemma parse_packet_str_eq packet_str :
  parse_packet_str py_float packet_str
  = match after_first c_lt packet_str with
    | Some r =>
      parse_content py_float (before_first c_lt packet_str)
        (before_first c_gt (before_first c_lt r))
        (after_last c_gt packet_str) packet_str
    | None => raise IndexError
    end.
Proof.
  unfold parse_packet_str.
  rewrite getitem_split_0, bind_ret, content_of_eq.
  destruct (after_first c_lt packet_str) as [r|]; [|done].
  by rewrite bind_ret, getitem_split_last, bind_ret.
Qed.
End Decoder.

(** ** White space *)

Lemma lstrip_head (s : pystr) :
  lstrip s = [] ∨ ∃ c t, lstrip s = c :: t ∧ py_isspace c = false.
Proof.
  induction s as [|c t IH]; simpl; [by left|].
  destruct (py_isspace c) eqn:Hc; [done|]. right. by exists c, t.
Qed.

Lemma lstrip_snoc (a : pystr) (c : N) :
  py_isspace c = false → lstrip (a ++ [c]) = lstrip a ++ [c].
Proof.
  intros Hc. induction a as [|x a IH]; simpl; [by rewrite Hc|].
  by destruct (py_isspace x).
Qed.

Lemma rstrip_cons (c : N) (t : pystr) :
  py_isspace c = false → rstrip (c :: t) = c :: rstrip t.
Proof.
  intros Hc. unfold rstrip. simpl.
  by rewrite (lstrip_snoc _ _ Hc), rev_app_distr.
Qed.

Lemma lstrip_idem (s : pystr) : lstrip (lstrip s) = lstrip s.
Proof.
  destruct (lstrip_head s) as [->|(c & t & -> & Hc)]; [done|].
  simpl. by rewrite Hc.
Qed.

Lemma rstrip_idem (s : pystr) : rstrip (rstrip s) = rstrip s.
Proof. unfold rstrip. by rewrite rev_involutive, lstrip_idem. Qed.

(** [s.strip().strip()] is [s.strip()]. *)
Lemma strip_idem (s : pystr) : strip (strip s) = strip s.
Proof.
  unfold strip.
  destruct (lstrip_head s) as [->|(c & t & -> & Hc)]; [done|].
  rewrite (rstrip_cons _ _ Hc). simpl. rewrite Hc.
  by rewrite (rstrip_cons _ _ Hc), rstrip_idem.
Qed.

(** ** The body of the [try] *)

Section DecoderFacts.
Context {float : Type} (py_float : pystr → option float).
Implicit Types (self : IoTUDPServer float) (packet_str content : pystr)
  (p : parsed float) (e : exn) (l : list log_entry).

(** The value of a channel never raises: a text that is [NaN] once
    stripped gives [None], a text that [float] reads gives its value, and
    any other text leaves the channels as they are, with a warning. *)
Lemma parse_value_total (d : gmap pystr (option float)) (channel_num value : pystr) :
  parse_value py_float d channel_num value
  = if decide (strip value = s_NaN) then mret (<[channel_num := None]> d)
    else match py_float value with
         | Some x => mret (<[channel_num := Some x]> d)
         | None => ([Warning_could_not_parse channel_num value], inr d)
         end.
Proof.
  unfold parse_value. case_decide; [done|]. by destruct (py_float value).
Qed.

Lemma parse_value_no_exn (d : gmap pystr (option float)) (channel_num value : pystr) e :
  (parse_value py_float d channel_num value).2 ≠ inl e.
Proof.
  rewrite parse_value_total. case_decide; [done|]. by destruct (py_float value).
Qed.

Lemma parse_channel_exn (d : gmap pystr (option float)) (channel : pystr) e :
  (parse_channel py_float d channel).2 = inl e → e = ValueError.
Proof.
  unfold parse_channel. destruct (contains [c_eq] channel); [|done].
  destruct (split c_eq (strip channel)) as [|x [|y [|z w]]];
    try (by intros [= <-]).
  by intros ?%parse_value_no_exn.
Qed.

Lemma parse_channels_exn (d : gmap pystr (option float)) (channels : list pystr) e :
  (parse_channels py_float d channels).2 = inl e → e = ValueError.
Proof.
  revert d. induction channels as [|c cs IH]; intros d; simpl; [done|].
  unfold_M.
  destruct (parse_channel py_float d c) as [l [e'|d']] eqn:E; simpl.
  - intros [= <-]. apply (parse_channel_exn d c). by rewrite E.
  - specialize (IH d'). destruct (parse_channels py_float d' cs) as [l' r].
    simpl in *. done.
Qed.

(** Lines 69-83 on a content without the marker: nothing is parsed and
    [channels_part] stays unassigned. *)
Lemma parse_channel_data_no_marker content :
  contains sendVal content = false →
  parse_channel_data py_float content = mret (None, ∅).
Proof. unfold parse_channel_data. by intros ->. Qed.

(** What [parse_content] returns when it returns. *)
Lemma parse_content_ok (ser content chk packet_str : pystr) l p :
  parse_content py_float ser content chk packet_str = (l, inr p) →
  contains sendVal content = true
  ∧ serial p = ser ∧ checksum p = chk ∧ raw_packet p = packet_str
  ∧ is_end_marker p = bool_decide (strip (remove_all sendVal content) = [])
  ∧ (is_end_marker p = true → channel_data p = ∅).
Proof.
  unfold parse_content, parse_channel_data.
  destruct (contains sendVal content); [|by unfold_M].
  intros H. split; [done|]. revert H.
  destruct (strip (remove_all sendVal content)) as [|c t] eqn:E.
  - unfold_M. simpl. by intros [= <- <-].
  - unfold_M.
    destruct (parse_channels py_float ∅ (split c_semi (c :: t))) as [l' [e|d]];
      simpl; [done|].
    intros [= <- <-]. simpl. rewrite <- E, strip_idem, E.
    repeat split; try done.
Qed.

Lemma parse_content_exn (ser content chk packet_str : pystr) e :
  (parse_content py_float ser content chk packet_str).2 = inl e →
  e = ValueError ∨ e = UnboundLocalError.
Proof.
  unfold parse_content, parse_channel_data.
  destruct (contains sendVal content); [|unfold_M; simpl; intros [= <-]; by right].
  destruct (strip (remove_all sendVal content)) as [|c t] eqn:E.
  - by unfold_M.
  - pose proof (parse_channels_exn ∅ (split c_semi (c :: t)) e) as Hex.
    unfold_M.
    destruct (parse_channels py_float ∅ (split c_semi (c :: t))) as [l' [e'|d]];
      simpl in *; [|done].
    intros [= <-]. left. by apply Hex.
Qed.

(** The serial, the check sum and the raw text are copied into the result
    and decide nothing else. *)
Lemma parse_content_data (ser ser' content chk chk' raw raw' : pystr) :
  data_of <$> parse_content py_float ser content chk raw
  = data_of <$> parse_content py_float ser' content chk' raw'.
Proof.
  unfold parse_content.
  destruct (parse_channel_data py_float content) as [l [e|[[cp|] d]]];
    by unfold_M.
Qed.

Lemma parse_content_fields (ser content chk chk' raw raw' : pystr) :
  fields_of <$> parse_content py_float ser content chk raw
  = fields_of <$> parse_content py_float ser content chk' raw'.
Proof.
  unfold parse_content.
  destruct (parse_channel_data py_float content) as [l [e|[[cp|] d]]];
    by unfold_M.
Qed.

Lemma parse_content_without_raw (ser content chk raw raw' : pystr) :
  without_raw <$> parse_content py_float ser content chk raw
  = without_raw <$> parse_content py_float ser content chk raw'.
Proof.
  unfold parse_content.
  destruct (parse_channel_data py_float content) as [l [e|[[cp|] d]]];
    by unfold_M.
Qed.

(** [parse_packet] in terms of the body of its [try]. *)
Lemma parse_packet_eq self (packet_bytes : list byte) :
  parse_packet py_float self packet_bytes
  = match parse_packet_try py_float packet_bytes with
    | (l, inr p) => (add_log l self, Some p)
    | (l, inl e) => (add_log (l ++ [Error_parsing_packet e]) self, None)
    end.
Proof. done. Qed.

Lemma parse_packet_try_decoded (packet_bytes : list byte) packet_str :
  utf8_decode packet_bytes = Some packet_str →
  parse_packet_try py_float packet_bytes = parse_packet_str py_float packet_str.
Proof. unfold parse_packet_try. intros ->. apply bind_ret. Qed.

Lemma parse_packet_Some self (packet_bytes : list byte) p :
  (parse_packet py_float self packet_bytes).2 = Some p →
  ∃ packet_str l,
    utf8_decode packet_bytes = Some packet_str
    ∧ parse_packet_str py_float packet_str = (l, inr p).
Proof.
  rewrite parse_packet_eq. unfold parse_packet_try.
  destruct (utf8_decode packet_bytes) as [packet_str|]; [|done].
  rewrite bind_ret.
  destruct (parse_packet_str py_float packet_str) as [l [e|p']] eqn:E; [done|].
  intros [= ->]. by exists packet_str, l.
Qed.

(** The log, the buffer and the readings after a datagram that does not
    parse. *)
Lemma handle_datagram_None self (packet_bytes : list byte) :
  (parse_packet py_float self packet_bytes).2 = None →
  packet_buffer (handle_datagram py_float self packet_bytes) = packet_buffer self
  ∧ saved (handle_datagram py_float self packet_bytes) = saved self.
Proof.
  unfold handle_datagram. rewrite parse_packet_eq.
  by destruct (parse_packet_try py_float packet_bytes) as [l [e|p]].
Qed.
End DecoderFacts.

(** ** More on the components *)

Lemma before_after_first (sep : N) (s r : pystr) :
  after_first sep s = Some r → s = before_first sep s ++ sep :: r.
Proof.
  induction s as [|c t IH]; simpl; [done|].
  destruct (N.eqb_spec c sep) as [->|]; [by intros [= ->]|].
  intros Hr. simpl. f_equal. by apply IH.
Qed.

Lemma after_first_app_r (sep : N) (s r x : pystr) :
  after_first sep s = Some r → after_first sep (s ++ x) = Some (r ++ x).
Proof.
  induction s as [|c t IH]; simpl; [done|].
  destruct (c =? sep); [by intros [= ->] | done].
Qed.

Lemma before_first_app_r (sep : N) (s r x : pystr) :
  after_first sep s = Some r → before_first sep (s ++ x) = before_first sep s.
Proof.
  induction s as [|c t IH]; simpl; [done|].
  destruct (c =? sep); [done|]. intros Hr. by rewrite IH.
Qed.

Lemma after_last_suffix (sep : N) (x r : pystr) :
  sep ∈ r → after_last sep (x ++ r) = after_last sep r.
Proof.
  intros Hr. induction x as [|c x IH]; simpl; [done|].
  replace (contains [sep] (x ++ r)) with true; [done|].
  symmetry. apply contains_char, elem_of_app. by right.
Qed.

Lemma count_pos (sep : N) (s : pystr) : (0 < count sep s)%nat → sep ∈ s.
Proof.
  unfold count. induction s as [|c t IH]; simpl; [lia|].
  rewrite elem_of_cons. destruct (decide (c = sep)) as [->|].
  - by left.
  - rewrite filter_cons_False by done. right. by apply IH.
Qed.

(** Without a [>] the content runs to the next [<] or to the end, as it
    does with a [>] at the end. *)
Lemma content_missing_gt (r : pystr) :
  c_gt ∉ r →
  before_first c_gt (before_first c_lt r) = before_first c_lt r
  ∧ before_first c_gt (before_first c_lt (r ++ [c_gt])) = before_first c_lt r.
Proof.
  induction r as [|c t IH]; simpl; [done|].
  intros [Hc Ht]%not_elem_of_cons. destruct (IH Ht) as [IH1 IH2].
  destruct (N.eqb_spec c c_lt); [done|]. simpl.
  destruct (N.eqb_spec c c_gt); [congruence|]. by rewrite IH1, IH2.
Qed.

(** ** Decoding a text piece by piece *)

(** Bytes that decode on their own decode the same in front of others. *)
Lemma utf8_decode_N_app (a b0 : list N) (s : pystr) :
  utf8_decode_N a = Some s →
  utf8_decode_N (a ++ b0) = (s ++.) <$> utf8_decode_N b0.
Proof.
  revert s. induction a as [a IH] using (induction_ltof1 _ (@length N)).
  unfold ltof in IH. intros s.
  assert (∀ (c : N) (t : list N) (s : pystr),
            (length t < length a)%nat →
            cons c <$> utf8_decode_N t = Some s →
            cons c <$> utf8_decode_N (t ++ b0) = (s ++.) <$> utf8_decode_N b0)
    as Hstep.
  { intros c t s' Hlt (s'' & Hs'' & ->)%fmap_Some.
    rewrite (IH t Hlt s'' Hs''). by destruct (utf8_decode_N b0). }
  destruct a as [|x0 [|x1 [|x2 [|x3 t3]]]]; cbn [utf8_decode_N app].
  - intros [= <-]. by destruct (utf8_decode_N b0).
  - destruct (x0 <? 128); [|done].
    intros H. by apply (Hstep _ [] _ ltac:(simpl; lia) H).
  - destruct (x0 <? 128);
      [intros H; by apply (Hstep _ [x1] _ ltac:(simpl; lia) H)|].
    destruct (in_range 194 223 x0); [|done].
    destruct (is_cont x1); [|done].
    intros H. by apply (Hstep _ [] _ ltac:(simpl; lia) H).
  - destruct (x0 <? 128);
      [intros H; by apply (Hstep _ [x1; x2] _ ltac:(simpl; lia) H)|].
    destruct (in_range 194 223 x0).
    { destruct (is_cont x1); [|done].
      intros H. by apply (Hstep _ [x2] _ ltac:(simpl; lia) H). }
    destruct (in_range 224 239 x0); [|done].
    destruct (_ && _); [|done].
    intros H. by apply (Hstep _ [] _ ltac:(simpl; lia) H).
  - destruct (x0 <? 128);
      [intros H; by apply (Hstep _ (x1 :: x2 :: x3 :: t3) _ ltac:(simpl; lia) H)|].
    destruct (in_range 194 223 x0).
    { destruct (is_cont x1); [|done].
      intros H. by apply (Hstep _ (x2 :: x3 :: t3) _ ltac:(simpl; lia) H). }
    destruct (in_range 224 239 x0).
    { destruct (_ && _); [|done].
      intros H. by apply (Hstep _ (x3 :: t3) _ ltac:(simpl; lia) H). }
    destruct (_ && _); [|done].
    intros H. by apply (Hstep _ t3 _ ltac:(simpl; lia) H).
Qed.

(** A payload made of the bytes of a serial, [<] and more bytes. *)
Lemma utf8_decode_serial (sb bs : list byte) (s : pystr) :
  utf8_decode sb = Some s →
  utf8_decode (sb ++ "<"%byte :: bs)
  = (λ rest, s ++ c_lt :: rest) <$> utf8_decode bs.
Proof.
  unfold utf8_decode. intros Hs. rewrite map_app.
  rewrite (utf8_decode_N_app _ _ _ Hs). simpl.
  by destruct (utf8_decode_N (map Byte.to_N bs)).
Qed.

(** ** The decoder *)

(** C2 fails on every packet whose bracketed content has no marker. The
    content is not parsed as channel assignments, and the packet is not
    returned either: [channels_part] is assigned under the test of line 70
    only, line 90 reads it, and the [UnboundLocalError] is caught at line
    93. [parse_packet] logs the error and returns [None]. *)
Theorem C2_no_marker_fails_the_packet {float} (py_float : pystr → option float)
    (self : IoTUDPServer float) (packet_bytes : list byte)
    (packet_str content : pystr) :
  utf8_decode packet_bytes = Some packet_str →
  content_of packet_str = mret content →
  contains sendVal content = false →
  parse_packet py_float self packet_bytes
  = (add_log [Error_parsing_packet UnboundLocalError] self, None).
Proof.
  intros Hdec Hcontent Hm.
  rewrite parse_packet_eq, (parse_packet_try_decoded _ _ _ Hdec).
  unfold parse_packet_str.
  rewrite getitem_split_0, bind_ret, Hcontent, bind_ret.
  rewrite getitem_split_last, bind_ret.
  unfold parse_content. by rewrite (parse_channel_data_no_marker _ _ Hm).
Qed.

Lemma C2_witness :
  parse_packet float_of_str (new_server pyfloat) (b "DEV1<0=1.5>CHK")
  = (add_log [Error_parsing_packet UnboundLocalError] (new_server pyfloat), None).
Proof.
  apply (C2_no_marker_fails_the_packet float_of_str (new_server pyfloat)
           (b "DEV1<0=1.5>CHK") (u "DEV1<0=1.5>CHK") (u "0=1.5")).
  - reflexivity.
  - reflexivity.
  - reflexivity.
Defined.

(** C3, as the code has it. A decoded text fails for a missing delimiter
    ([IndexError]) exactly when it has no [<]; the datagram then gives no
    packet and leaves the buffer and the readings as they are. A missing
    [>] is no error: when the text after the first [<] has no [>], the
    content runs to the next [<] or to the end, and the serial, the
    channels and the end marker are those of the same text with a [>]
    added at its end. *)
Theorem C3_missing_delimiter {float} (py_float : pystr → option float)
    (self : IoTUDPServer float) (packet_bytes : list byte) (packet_str : pystr) :
  utf8_decode packet_bytes = Some packet_str →
  ((parse_packet_try py_float packet_bytes).2 = inl IndexError
   ↔ c_lt ∉ packet_str)
  ∧ (c_lt ∉ packet_str →
     (parse_packet py_float self packet_bytes).2 = None
     ∧ packet_buffer (handle_datagram py_float self packet_bytes)
       = packet_buffer self
     ∧ saved (handle_datagram py_float self packet_bytes) = saved self)
  ∧ (∀ r, after_first c_lt packet_str = Some r → c_gt ∉ r →
     content_of packet_str = mret (before_first c_lt r)
     ∧ fields_of <$> parse_packet_str py_float packet_str
       = fields_of <$> parse_packet_str py_float (packet_str ++ [c_gt])).
Proof.
  intros Hdec.
  assert ((parse_packet_try py_float packet_bytes).2 = inl IndexError
          ↔ c_lt ∉ packet_str) as Hiff.
  { rewrite (parse_packet_try_decoded _ _ _ Hdec), parse_packet_str_eq.
    rewrite <- after_first_None.
    destruct (after_first c_lt packet_str) as [r|]; [|done].
    split; [|done]. by intros [?|?]%parse_content_exn. }
  split_and!; [done| |].
  - intros Hno. apply Hiff in Hno.
    assert ((parse_packet py_float self packet_bytes).2 = None) as HNone.
    { rewrite parse_packet_eq.
      destruct (parse_packet_try py_float packet_bytes) as [l [e|p]]; done. }
    split; [done|]. by apply handle_datagram_None.
  - intros r Hr Hgt. destruct (content_missing_gt r Hgt) as [H1 H2]. split.
    + by rewrite content_of_eq, Hr, H1.
    + rewrite !parse_packet_str_eq, Hr, (after_first_app_r _ _ _ _ Hr).
      rewrite (before_first_app_r _ _ _ _ Hr), H1, H2.
      apply parse_content_fields.
Qed.

Lemma C3_witness :
  let packet_bytes := b "DEV1<sendVal 0=1.5" in
  let packet_str := u "DEV1<sendVal 0=1.5" in
  let self := new_server pyfloat in
  ((parse_packet_try float_of_str packet_bytes).2 = inl IndexError
   ↔ c_lt ∉ packet_str)
  ∧ (c_lt ∉ packet_str →
     (parse_packet float_of_str self packet_bytes).2 = None
     ∧ packet_buffer (handle_datagram float_of_str self packet_bytes)
       = packet_buffer self
     ∧ saved (handle_datagram float_of_str self packet_bytes) = saved self)
  ∧ (∀ r, after_first c_lt packet_str = Some r → c_gt ∉ r →
     content_of packet_str = mret (before_first c_lt r)
     ∧ fields_of <$> parse_packet_str float_of_str packet_str
       = fields_of <$> parse_packet_str float_of_str (packet_str ++ [c_gt])).
Proof.
  apply (C3_missing_delimiter float_of_str (new_server pyfloat)
           (b "DEV1<sendVal 0=1.5") (u "DEV1<sendVal 0=1.5")).
  reflexivity.
Defined.

(** C3 as stated fails: the text after the first [<] has no [>], and the
    packet is decoded; the check sum is the whole text. *)
Lemma C3_counterexample :
  after_first c_lt (u "DEV1<sendVal 0=1.5") = Some (u "sendVal 0=1.5")
  ∧ contains [c_gt] (u "sendVal 0=1.5") = false
  ∧ (parse_packet float_of_str (new_server pyfloat) (b "DEV1<sendVal 0=1.5")).2
    = Some {| serial := u "DEV1";
              channel_data := {[ u "0" := Some (Finite false 15 (-1)) ]};
              checksum := u "DEV1<sendVal 0=1.5";
              raw_packet := u "DEV1<sendVal 0=1.5";
              is_end_marker := false |}.
Proof. by vm_compute. Qed.

(** A channel token with one [=]: a value that is [NaN] once stripped is
    stored as [None], and a value that [float] does not read leaves the
    channels as they are and raises nothing. *)
Lemma parse_channel_one_equals {float} (py_float : pystr → option float)
    (d : gmap pystr (option float)) (channel channel_num value : pystr) :
  contains [c_eq] channel = true →
  split c_eq (strip channel) = [channel_num; value] →
  (strip value = s_NaN →
     parse_channel py_float d channel = mret (<[channel_num := None]> d))
  ∧ (strip value ≠ s_NaN → py_float value = None →
     parse_channel py_float d channel
     = ([Warning_could_not_parse channel_num value], inr d)).
Proof.
  intros Hc Hs. unfold parse_channel. rewrite Hc, Hs, parse_value_total.
  split.
  - intros Hv. by rewrite decide_True.
  - intros Hv Hf. by rewrite decide_False, Hf.
Qed.

(** A token that [float] does not read is as good as absent for the
    other channels of the packet. *)
Lemma parse_channels_skip {float} (py_float : pystr → option float)
    (d : gmap pystr (option float)) (before after : list pystr)
    (channel channel_num value : pystr) :
  contains [c_eq] channel = true →
  split c_eq (strip channel) = [channel_num; value] →
  strip value ≠ s_NaN → py_float value = None →
  (parse_channels py_float d (before ++ channel :: after)).2
  = (parse_channels py_float d (before ++ after)).2.
Proof.
  intros Hc Hs Hv Hf. revert d.
  induction before as [|c cs IH]; intros d; simpl.
  - destruct (parse_channel_one_equals py_float d channel channel_num value Hc Hs)
      as [_ H].
    rewrite (H Hv Hf). unfold_M. by destruct (parse_channels py_float d after).
  - unfold_M. destruct (parse_channel py_float d c) as [l [e|d']]; [done|].
    specialize (IH d').
    destruct (parse_channels py_float d' (cs ++ channel :: after)),
             (parse_channels py_float d' (cs ++ after)).
    simpl in *. by subst.
Qed.

(** C4 fails on a value that contains [=]. In [0=1=2] the value of channel
    0 is not a number; line 75, outside the inner [try], raises
    [ValueError] when it unpacks the three parts, and the whole packet is
    dropped, the channel [1=5] with it. *)
Theorem C4_value_with_equals_drops_the_packet {float}
    (py_float : pystr → option float) (self : IoTUDPServer float) :
  parse_packet py_float self (b "DEV1<sendVal 0=1=2;1=5>CHK")
  = (add_log [Error_parsing_packet ValueError] self, None).
Proof. reflexivity. Qed.

(** C5, as the code has it. A parsed packet is an end marker exactly when
    its body, the content without the marker and stripped, is empty; an
    end marker has no channel. *)
Theorem C5_end_marker_is_empty_body {float} (py_float : pystr → option float)
    (self : IoTUDPServer float) (packet_bytes : list byte) (p : parsed float) :
  (parse_packet py_float self packet_bytes).2 = Some p →
  ∃ packet_str content,
    utf8_decode packet_bytes = Some packet_str
    ∧ content_of packet_str = mret content
    ∧ (is_end_marker p = true ↔ strip (remove_all sendVal content) = [])
    ∧ (is_end_marker p = true → channel_data p = ∅).
Proof.
  intros (packet_str & l & Hdec & Hp)%parse_packet_Some.
  rewrite parse_packet_str_eq in Hp.
  destruct (after_first c_lt packet_str) as [r|] eqn:Hr; [|done].
  apply parse_content_ok in Hp as (_ & _ & _ & _ & Hend & Hch).
  exists packet_str, (before_first c_gt (before_first c_lt r)).
  split_and!; [done | by rewrite content_of_eq, Hr | | done].
  rewrite Hend. apply bool_decide_eq_true.
Qed.

Lemma C5_witness :
  ∃ packet_str content,
    utf8_decode (b "DEV1<sendVal >CHK") = Some packet_str
    ∧ content_of packet_str = mret content
    ∧ (is_end_marker dev1_end = true ↔ strip (remove_all sendVal content) = [])
    ∧ (is_end_marker dev1_end = true → channel_data dev1_end = ∅).
Proof.
  apply (C5_end_marker_is_empty_body float_of_str (new_server pyfloat)
           (b "DEV1<sendVal >CHK") dev1_end).
  reflexivity.
Defined.

(** C5 as stated fails: the body [abc] has no channel assignment, so the
    channels are empty, and the packet is not an end marker. *)
Lemma C5_counterexample :
  (parse_packet float_of_str (new_server pyfloat) (b "DEV1<sendVal abc>CHK")).2
  = Some {| serial := u "DEV1"; channel_data := ∅; checksum := u "CHK";
            raw_packet := u "DEV1<sendVal abc>CHK"; is_end_marker := false |}.
Proof. by vm_compute. Qed.

(** C8. Decoding is a function of the bytes: in any two states of the
    server the same bytes give the same packet or the same failure, and
    write the same entries to the log, the exception caught among them. *)
Theorem C8_decoding_is_deterministic {float} (py_float : pystr → option float)
    (self1 self2 : IoTUDPServer float) (packet_bytes : list byte) :
  (parse_packet py_float self1 packet_bytes).2
  = (parse_packet py_float self2 packet_bytes).2
  ∧ ∃ l, (parse_packet py_float self1 packet_bytes).1 = add_log l self1
         ∧ (parse_packet py_float self2 packet_bytes).1 = add_log l self2
         ∧ (∀ e, (parse_packet_try py_float packet_bytes).2 = inl e →
                 last l = Some (Error_parsing_packet e)
                 ∧ (parse_packet py_float self1 packet_bytes).2 = None).
Proof.
  rewrite !parse_packet_eq.
  destruct (parse_packet_try py_float packet_bytes) as [l [e|p]]; simpl.
  - split; [done|]. exists (l ++ [Error_parsing_packet e]).
    split_and!; [done..|]. intros e' [= <-]. by rewrite last_snoc.
  - split; [done|]. by exists l.
Qed.

(** C9, as the code has it. When the text after the first [<] has more
    than one [>], the content is the text between the first [<] and the
    first [<] or [>] after it, and the check sum is the text after the last
    [>]. The packet is parsed from the serial, this content and this check
    sum; what lies between the content and the check sum is kept in the raw
    text only: two packets that agree on the three parts agree on
    everything but the raw text. *)
Theorem C9_content_and_checksum {float} (py_float : pystr → option float)
    (packet_str r : pystr) :
  after_first c_lt packet_str = Some r →
  (1 < count c_gt r)%nat →
  content_of packet_str = mret (before_first c_gt (before_first c_lt r))
  ∧ getitem (split c_gt packet_str) (-1) = mret (after_last c_gt r)
  ∧ parse_packet_str py_float packet_str
    = parse_content py_float (before_first c_lt packet_str)
        (before_first c_gt (before_first c_lt r)) (after_last c_gt r) packet_str
  ∧ (∀ packet_str' r',
       after_first c_lt packet_str' = Some r' → c_gt ∈ r' →
       before_first c_lt packet_str' = before_first c_lt packet_str →
       before_first c_gt (before_first c_lt r')
       = before_first c_gt (before_first c_lt r) →
       after_last c_gt r' = after_last c_gt r →
       without_raw <$> parse_packet_str py_float packet_str'
       = without_raw <$> parse_packet_str py_float packet_str).
Proof.
  intros Hr Hcount.
  assert (c_gt ∈ r) as Hgt by (apply count_pos; lia).
  assert (∀ s x, after_first c_lt s = Some x → c_gt ∈ x →
                 after_last c_gt s = after_last c_gt x) as Hlast.
  { intros s x Hx Hin. rewrite (before_after_first _ _ _ Hx) at 1.
    change (c_lt :: x) with ([c_lt] ++ x).
    by rewrite app_assoc, after_last_suffix. }
  split_and!.
  - by rewrite content_of_eq, Hr.
  - by rewrite getitem_split_last, (Hlast _ _ Hr Hgt).
  - by rewrite parse_packet_str_eq, Hr, (Hlast _ _ Hr Hgt).
  - intros packet_str' r' Hr' Hgt' Hser Hcont Hchk.
    rewrite !parse_packet_str_eq, Hr, Hr'.
    rewrite (Hlast _ _ Hr Hgt), (Hlast _ _ Hr' Hgt'), Hser, Hcont, Hchk.
    apply parse_content_without_raw.
Qed.

Lemma C9_witness :
  let packet_str := u "D<sendVal 0=1>x>chk" in
  let r := u "sendVal 0=1>x>chk" in
  content_of packet_str = mret (before_first c_gt (before_first c_lt r))
  ∧ getitem (split c_gt packet_str) (-1) = mret (after_last c_gt r)
  ∧ parse_packet_str float_of_str packet_str
    = parse_content float_of_str (before_first c_lt packet_str)
        (before_first c_gt (before_first c_lt r)) (after_last c_gt r) packet_str
  ∧ (∀ packet_str' r',
       after_first c_lt packet_str' = Some r' → c_gt ∈ r' →
       before_first c_lt packet_str' = before_first c_lt packet_str →
       before_first c_gt (before_first c_lt r')
       = before_first c_gt (before_first c_lt r) →
       after_last c_gt r' = after_last c_gt r →
       without_raw <$> parse_packet_str float_of_str packet_str'
       = without_raw <$> parse_packet_str float_of_str packet_str).
Proof.
  apply (C9_content_and_checksum float_of_str
           (u "D<sendVal 0=1>x>chk") (u "sendVal 0=1>x>chk")).
  - reflexivity.
  - vm_compute. lia.
Defined.

(** C9 as stated fails: a second [<] ends the content before the first
    [>]. The text before the first [>] is [sendVal 0=1;<1=2]; the content
    that is parsed is [sendVal 0=1;], and the packet has channel 0 only. *)
Lemma C9_counterexample :
  after_first c_lt (u "D<sendVal 0=1;<1=2>x>chk") = Some (u "sendVal 0=1;<1=2>x>chk")
  ∧ count c_gt (u "sendVal 0=1;<1=2>x>chk") = 2%nat
  ∧ before_first c_gt (u "sendVal 0=1;<1=2>x>chk") = u "sendVal 0=1;<1=2"
  ∧ content_of (u "D<sendVal 0=1;<1=2>x>chk") = mret (u "sendVal 0=1;")
  ∧ content_of (u "D<sendVal 0=1;<1=2>x>chk")
    ≠ mret (before_first c_gt (u "sendVal 0=1;<1=2>x>chk"))
  ∧ (parse_packet float_of_str (new_server pyfloat) (b "D<sendVal 0=1;<1=2>x>chk")).2
    = Some {| serial := u "D";
              channel_data := {[ u "0" := Some (Finite false 1 0) ]};
              checksum := u "chk";
              raw_packet := u "D<sendVal 0=1;<1=2>x>chk";
              is_end_marker := false |}.
Proof. by vm_compute. Qed.

(** C10, as the code has it. No check is made on the serial. When a
    payload that begins with [<] is parsed, the serial of the packet is the
    empty string. The bytes after the [<] give the same channels and end
    marker, or the same failure and the same log entries, behind the empty
    serial as behind any serial: what is parsed behind a serial is parsed
    behind the empty one, and what fails fails alike. Packets with the
    empty serial are buffered and completed under it like those of any
    device: a data packet is added to the pending ones, and an end marker
    after one or more data packets saves one reading and leaves nothing
    pending. *)
Theorem C10_empty_serial {float} (py_float : pystr → option float)
    (self : IoTUDPServer float) (bs : list byte) :
  (∀ p, (parse_packet py_float self ("<"%byte :: bs)).2 = Some p → serial p = [])
  ∧ (∀ (sb : list byte) (s : pystr),
       utf8_decode sb = Some s → c_lt ∉ s →
       data_of <$> parse_packet_try py_float ("<"%byte :: bs)
       = data_of <$> parse_packet_try py_float (sb ++ "<"%byte :: bs))
  ∧ (∀ rest s, c_lt ∉ s →
       data_of <$> parse_packet_str py_float (c_lt :: rest)
       = data_of <$> parse_packet_str py_float (s ++ c_lt :: rest))
  ∧ (∀ (s : IoTUDPServer float) q,
       serial q = [] → is_end_marker q = false →
       packet_buffer (dispatch s q) !! []
       = Some (let d := default [] (packet_buffer s !! []) in
               dict_set (length d) q d))
  ∧ (∀ (s : IoTUDPServer float) fs t,
       packet_buffer s !! [] = None → fs ≠ [] →
       Forall (λ q, serial q = [] ∧ is_end_marker q = false) fs →
       serial t = [] → is_end_marker t = true →
       dispatch_all s (fs ++ [t])
       = mk_server (buffer_size s) (packet_buffer s) (log s)
           (saved s ++ [mk_reading [] (combine fs).1 (map raw_packet fs)])).
Proof.
  assert (∀ rest s, c_lt ∉ s →
            data_of <$> parse_packet_str py_float (c_lt :: rest)
            = data_of <$> parse_packet_str py_float (s ++ c_lt :: rest)) as Hstr.
  { intros rest s Hs.
    rewrite !parse_packet_str_eq, (after_first_app _ _ _ Hs). simpl.
    apply parse_content_data. }
  split_and!.
  - intros p (packet_str & l & Hdec & Hp)%parse_packet_Some.
    unfold utf8_decode in Hdec. simpl in Hdec.
    destruct (utf8_decode_N (map Byte.to_N bs)) as [rest|]; [|done].
    injection Hdec as <-.
    rewrite parse_packet_str_eq in Hp. simpl in Hp.
    by apply parse_content_ok in Hp as (_ & ? & _).
  - intros sb s Hsb Hs. unfold parse_packet_try.
    rewrite (utf8_decode_serial sb bs s Hsb).
    replace (utf8_decode ("<"%byte :: bs))
      with (cons c_lt <$> utf8_decode bs) by done.
    destruct (utf8_decode bs) as [rest|]; simpl; [|done].
    specialize (Hstr rest s Hs).
    by destruct (parse_packet_str py_float (c_lt :: rest)),
                (parse_packet_str py_float (s ++ c_lt :: rest)).
  - done.
  - intros s q Hq Hend. rewrite (dispatch_data _ _ Hend). simpl.
    by rewrite Hq, lookup_insert_eq.
  - intros s fs t. apply transmission_completes.
Qed.

Lemma C10_witness :
  let p := {| serial := []; channel_data := {[ u "0" := Some (Finite false 7 0) ]};
              checksum := u "X"; raw_packet := u "<sendVal 0=7>X";
              is_end_marker := false |} in
  (parse_packet float_of_str (new_server pyfloat) (b "<sendVal 0=7>X")).2 = Some p
  ∧ serial p = []
  ∧ data_of <$> parse_packet_try float_of_str (b "<sendVal 0=7>X")
    = data_of <$> parse_packet_try float_of_str (b "DEV2" ++ b "<sendVal 0=7>X").
Proof.
  pose proof (C10_empty_serial float_of_str (new_server pyfloat)
                (b "sendVal 0=7>X")) as (Hserial & Hsame & _).
  split_and!.
  - reflexivity.
  - apply (Hserial _ eq_refl).
  - apply (Hsame (b "DEV2") (u "DEV2")).
    + reflexivity.
    + apply contains_char_false. reflexivity.
Defined.

(** C10 as stated fails: a payload that begins with [<] and is not UTF-8
    is not decoded. *)
Lemma C10_counterexample :
  utf8_decode ["<"%byte; xff] = None
  ∧ parse_packet float_of_str (new_server pyfloat) ["<"%byte; xff]
    = (add_log [Error_parsing_packet UnicodeDecodeError] (new_server pyfloat), None).
Proof. by vm_compute. Qed.

(** * Further properties of the decoder *)

(** ** Counting separators *)

Lemma count_cons (sep c : N) (s : pystr) :
  count sep (c :: s) = (if decide (c = sep) then S (count sep s) else count sep s).
Proof.
  unfold count. case_decide.
  - by rewrite filter_cons_True.
  - by rewrite filter_cons_False.
Qed.

Lemma count_app (sep : N) (s r : pystr) :
  count sep (s ++ r) = (count sep s + count sep r)%nat.
Proof. unfold count. by rewrite filter_app, length_app. Qed.

Lemma count_zero (sep : N) (s : pystr) : count sep s = 0%nat ↔ sep ∉ s.
Proof.
  induction s as [|c t IH]; [by split; [intros _ ?%elem_of_nil|]|].
  rewrite count_cons, not_elem_of_cons. case_decide.
  - split; [done | intros [? _]; congruence].
  - rewrite IH. split; [intros ?; split; [congruence | done] | by intros [_ ?]].
Qed.

Lemma count_contains (sep : N) (s : pystr) :
  contains [sep] s = true ↔ (1 ≤ count sep s)%nat.
Proof.
  rewrite contains_char.
  destruct (decide (sep ∈ s)) as [Hin|Hin].
  - split; [|done]. intros _.
    destruct (count sep s) eqn:E; [|lia]. by apply count_zero in E.
  - split; [done|]. intros Hc. apply count_zero in Hin. lia.
Qed.

Lemma length_split (sep : N) (s : pystr) :
  length (split sep s) = S (count sep s).
Proof.
  induction s as [|c t IH]; [done|].
  rewrite count_cons. simpl. destruct (N.eqb_spec c sep).
  - rewrite decide_True by done. simpl. by rewrite IH.
  - rewrite decide_False by done.
    destruct (split sep t); simpl in *; [done|]. by rewrite <- IH.
Qed.

Lemma count_lstrip (sep : N) (s : pystr) :
  py_isspace sep = false → count sep (lstrip s) = count sep s.
Proof.
  intros Hsep. induction s as [|c t IH]; [done|]. simpl.
  destruct (py_isspace c) eqn:Hc; [|done].
  rewrite IH, count_cons, decide_False; [done|]. congruence.
Qed.

Lemma count_rev (sep : N) (s : pystr) : count sep (rev s) = count sep s.
Proof.
  induction s as [|c t IH]; [done|]. simpl.
  rewrite count_app, IH, !count_cons.
  change (count sep []) with 0%nat. case_decide; lia.
Qed.

(** Stripping removes no separator that is not white space. *)
Lemma count_strip (sep : N) (s : pystr) :
  py_isspace sep = false → count sep (strip s) = count sep s.
Proof.
  intros Hsep. unfold strip, rstrip.
  by rewrite count_rev, count_lstrip, count_rev, count_lstrip.
Qed.

(** ** When the loop over the channels raises *)

Section Outcome.
Context {float : Type} (py_float : pystr → option float).
Implicit Types (self : IoTUDPServer float) (d : gmap pystr (option float))
  (channel packet_str content : pystr) (e : exn).

(** One token: it raises, and then [ValueError], exactly when it has two
    [=] or more. *)
Lemma parse_channel_outcome d channel :
  match (parse_channel py_float d channel).2 with
  | inl e => e = ValueError ∧ (2 ≤ count c_eq channel)%nat
  | inr _ => (count c_eq channel ≤ 1)%nat
  end.
Proof.
  unfold parse_channel.
  destruct (contains [c_eq] channel) eqn:Hc.
  - apply count_contains in Hc.
    pose proof (length_split c_eq (strip channel)) as Hlen.
    rewrite (count_strip c_eq channel) in Hlen by done.
    destruct (split c_eq (strip channel)) as [|x [|y [|z w]]]; simpl in *;
      try (split; [done | lia]).
    pose proof (parse_value_no_exn py_float d x y) as Hv.
    destruct (parse_value py_float d x y) as [l [e|d']]; simpl in *.
    + by destruct (Hv e).
    + lia.
  - simpl. destruct (count c_eq channel) eqn:E; [lia|].
    assert (contains [c_eq] channel = true) by (apply count_contains; lia).
    congruence.
Qed.

Lemma parse_channels_outcome d (channels : list pystr) :
  match (parse_channels py_float d channels).2 with
  | inl e => e = ValueError ∧ Exists (λ c, (2 ≤ count c_eq c)%nat) channels
  | inr _ => Forall (λ c, (count c_eq c ≤ 1)%nat) channels
  end.
Proof.
  revert d. induction channels as [|c cs IH]; intros d; simpl; [done|].
  pose proof (parse_channel_outcome d c) as Hc. unfold_M.
  destruct (parse_channel py_float d c) as [l [e|d']]; simpl in *.
  - destruct Hc as [-> Hc]. split; [done|]. by apply Exists_cons_hd.
  - specialize (IH d').
    destruct (parse_channels py_float d' cs) as [l' [e|d'']]; simpl in *.
    + destruct IH as [-> IH]. split; [done|]. by apply Exists_cons_tl.
    + by apply Forall_cons.
Qed.

Lemma parse_content_outcome (ser content chk packet_str : pystr) :
  let channels := split c_semi (strip (remove_all sendVal content)) in
  match (parse_content py_float ser content chk packet_str).2 with
  | inl UnboundLocalError => contains sendVal content = false
  | inl ValueError =>
    contains sendVal content = true
    ∧ Exists (λ c, (2 ≤ count c_eq c)%nat) channels
  | inl _ => False
  | inr _ =>
    contains sendVal content = true
    ∧ Forall (λ c, (count c_eq c ≤ 1)%nat) channels
  end.
Proof.
  unfold parse_content, parse_channel_data.
  destruct (contains sendVal content); [|by unfold_M].
  destruct (strip (remove_all sendVal content)) as [|c t] eqn:E.
  - unfold_M. simpl. split; [done|]. apply Forall_singleton. unfold count. simpl. lia.
  - pose proof (parse_channels_outcome ∅ (split c_semi (c :: t))) as Hch.
    unfold_M.
    destruct (parse_channels py_float ∅ (split c_semi (c :: t))) as [l' [e|d]];
      simpl in *.
    + by destruct Hch as [-> Hch].
    + done.
Qed.
End Outcome.

(** ** Which packets are parsed, and how the others fail *)

Section Taxonomy.
Context {float : Type} (py_float : pystr → option float).
Implicit Types (self : IoTUDPServer float) (packet_bytes : list byte)
  (packet_str r : pystr) (e : exn).

Lemma parse_packet_try_cases packet_bytes :
  parse_packet_try py_float packet_bytes
  = match utf8_decode packet_bytes with
    | None => raise UnicodeDecodeError
    | Some packet_str =>
      match after_first c_lt packet_str with
      | None => raise IndexError
      | Some r =>
        parse_content py_float (before_first c_lt packet_str)
          (before_first c_gt (before_first c_lt r))
          (after_last c_gt packet_str) packet_str
      end
    end.
Proof.
  unfold parse_packet_try.
  destruct (utf8_decode packet_bytes) as [packet_str|]; [|done].
  by rewrite bind_ret, parse_packet_str_eq.
Qed.

Lemma tokens_not_both (channels : list pystr) :
  Forall (λ c, (count c_eq c ≤ 1)%nat) channels →
  Exists (λ c, (2 ≤ count c_eq c)%nat) channels → False.
Proof.
  intros HF (c & Hin & Hc)%Exists_exists.
  rewrite Forall_forall in HF. specialize (HF c Hin). lia.
Qed.

(** The outcome of the body of the [try], read off the payload. *)
Lemma parse_packet_try_outcome packet_bytes :
  match (parse_packet_try py_float packet_bytes).2 with
  | inl UnicodeDecodeError => utf8_decode packet_bytes = None
  | inl IndexError =>
    ∃ packet_str, utf8_decode packet_bytes = Some packet_str ∧ c_lt ∉ packet_str
  | inl UnboundLocalError =>
    ∃ packet_str r,
      utf8_decode packet_bytes = Some packet_str
      ∧ after_first c_lt packet_str = Some r
      ∧ contains sendVal (before_first c_gt (before_first c_lt r)) = false
  | inl ValueError =>
    ∃ packet_str r,
      utf8_decode packet_bytes = Some packet_str
      ∧ after_first c_lt packet_str = Some r
      ∧ contains sendVal (before_first c_gt (before_first c_lt r)) = true
      ∧ Exists (λ c, (2 ≤ count c_eq c)%nat)
          (split c_semi
             (strip (remove_all sendVal (before_first c_gt (before_first c_lt r)))))
  | inr _ =>
    ∃ packet_str r,
      utf8_decode packet_bytes = Some packet_str
      ∧ after_first c_lt packet_str = Some r
      ∧ contains sendVal (before_first c_gt (before_first c_lt r)) = true
      ∧ Forall (λ c, (count c_eq c ≤ 1)%nat)
          (split c_semi
             (strip (remove_all sendVal (before_first c_gt (before_first c_lt r)))))
  end.
Proof.
  rewrite parse_packet_try_cases.
  destruct (utf8_decode packet_bytes) as [packet_str|]; [|done].
  destruct (after_first c_lt packet_str) as [r|] eqn:Hr.
  - pose proof (parse_content_outcome py_float (before_first c_lt packet_str)
                  (before_first c_gt (before_first c_lt r))
                  (after_last c_gt packet_str) packet_str) as H.
    simpl in H.
    destruct (parse_content py_float _ _ _ _).2 as [[]|p]; try done.
    + destruct H. by exists packet_str, r.
    + by exists packet_str, r.
    + destruct H. by exists packet_str, r.
  - simpl. exists packet_str. split; [done|]. by apply after_first_None.
Qed.
End Taxonomy.

(** A datagram is parsed exactly when it is UTF-8, has a [<], has the
    marker [sendVal] in its content, and no token of its body has more
    than one [=]. *)
Theorem parse_packet_succeeds_iff {float} (py_float : pystr → option float)
    (self : IoTUDPServer float) (packet_bytes : list byte) :
  is_Some (parse_packet py_float self packet_bytes).2
  ↔ ∃ packet_str r,
      utf8_decode packet_bytes = Some packet_str
      ∧ after_first c_lt packet_str = Some r
      ∧ contains sendVal (before_first c_gt (before_first c_lt r)) = true
      ∧ Forall (λ c, (count c_eq c ≤ 1)%nat)
          (split c_semi
             (strip (remove_all sendVal (before_first c_gt (before_first c_lt r))))).
Proof.
  rewrite parse_packet_eq.
  pose proof (parse_packet_try_outcome py_float packet_bytes) as H.
  destruct (parse_packet_try py_float packet_bytes) as [l [e|p]]; simpl in *.
  - split; [by intros [? ?]|].
    intros (packet_str & r & Hdec & Hr & Hm & Hall). exfalso.
    destruct e.
    + congruence.
    + destruct H as (s & Hs & Hno). simplify_eq.
      apply after_first_None in Hno. congruence.
    + destruct H as (s & r' & Hs & Hr' & _ & Hex). simplify_eq.
      by apply (tokens_not_both _ Hall).
    + destruct H as (s & r' & Hs & Hr' & Hm'). simplify_eq. congruence.
  - split; [by intros _ | by eauto].
Qed.

(** The exception that [parse_packet] catches and logs, read off the
    payload: [UnicodeDecodeError] for bytes that are not UTF-8,
    [IndexError] for a text without [<], [UnboundLocalError] for a content
    without the marker, [ValueError] for a body with a token that has more
    than one [=]. *)
Theorem parse_packet_failure {float} (py_float : pystr → option float)
    (self : IoTUDPServer float) (packet_bytes : list byte) (e : exn) :
  (∃ l, parse_packet py_float self packet_bytes
        = (add_log (l ++ [Error_parsing_packet e]) self, None))
  ↔ match e with
    | UnicodeDecodeError => utf8_decode packet_bytes = None
    | IndexError =>
      ∃ packet_str, utf8_decode packet_bytes = Some packet_str ∧ c_lt ∉ packet_str
    | UnboundLocalError =>
      ∃ packet_str r,
        utf8_decode packet_bytes = Some packet_str
        ∧ after_first c_lt packet_str = Some r
        ∧ contains sendVal (before_first c_gt (before_first c_lt r)) = false
    | ValueError =>
      ∃ packet_str r,
        utf8_decode packet_bytes = Some packet_str
        ∧ after_first c_lt packet_str = Some r
        ∧ contains sendVal (before_first c_gt (before_first c_lt r)) = true
        ∧ Exists (λ c, (2 ≤ count c_eq c)%nat)
            (split c_semi
               (strip (remove_all sendVal (before_first c_gt (before_first c_lt r)))))
    end.
Proof.
  rewrite parse_packet_eq.
  pose proof (parse_packet_try_outcome py_float packet_bytes) as H.
  destruct (parse_packet_try py_float packet_bytes) as [l [e'|p]]; simpl in *.
  - split.
    + intros (l' & [= Hl]).
      apply app_inv_head, app_inj_tail in Hl as [_ [= <-]]. done.
    + intros He. assert (e' = e) as ->; [|by exists l].
      destruct e', e; try done;
        repeat match goal with
               | H : ∃ _, _ |- _ => destruct H
               | H : _ ∧ _ |- _ => destruct H
               end; simplify_eq;
        try congruence;
        try (by match goal with
                | H : c_lt ∉ _ |- _ => apply after_first_None in H; congruence
                end).
  - split; [by intros (l' & ?)|].
    intros He. exfalso.
    destruct H as (s & r & Hs & Hr & Hm & Hall).
    destruct e;
      repeat match goal with
             | H : ∃ _, _ |- _ => destruct H
             | H : _ ∧ _ |- _ => destruct H
             end; simplify_eq; try congruence.
    + match goal with
      | H : c_lt ∉ _ |- _ => apply after_first_None in H; congruence
      end.
    + by eapply tokens_not_both.
Qed.

(** ** The fields of a parsed packet *)

Lemma after_last_suffix_of (sep : N) (s : pystr) : after_last sep s `suffix_of` s.
Proof.
  induction s as [|c t IH]; simpl; [done|].
  destruct (contains [sep] t).
  - by apply suffix_cons_r.
  - destruct (c =? sep); [by apply suffix_cons_r | done].
Qed.

Lemma after_last_notin (sep : N) (s : pystr) : sep ∉ after_last sep s.
Proof.
  induction s as [|c t IH]; simpl; [by intros ?%elem_of_nil|].
  destruct (contains [sep] t) eqn:Ht; [done|].
  apply contains_char_false in Ht.
  destruct (N.eqb_spec c sep); [done|].
  rewrite not_elem_of_cons. split; [congruence | done].
Qed.

(** The raw text of a parsed packet is the decoded payload; the serial is
    the part of it before the first [<] and has no [<]; the check sum is
    an end of it and has no [>]. *)
Theorem parsed_packet_fields {float} (py_float : pystr → option float)
    (self : IoTUDPServer float) (packet_bytes : list byte) (p : parsed float) :
  (parse_packet py_float self packet_bytes).2 = Some p →
  utf8_decode packet_bytes = Some (raw_packet p)
  ∧ (c_lt ∉ serial p)
  ∧ (∃ rest, raw_packet p = serial p ++ c_lt :: rest)
  ∧ (c_gt ∉ checksum p)
  ∧ checksum p `suffix_of` raw_packet p.
Proof.
  intros (packet_str & l & Hdec & Hp)%parse_packet_Some.
  rewrite parse_packet_str_eq in Hp.
  destruct (after_first c_lt packet_str) as [r|] eqn:Hr; [|done].
  apply parse_content_ok in Hp as (_ & -> & -> & -> & _).
  split_and!.
  - done.
  - apply before_first_notin.
  - exists r. by apply before_after_first.
  - apply after_last_notin.
  - apply after_last_suffix_of.
Qed.

Lemma parsed_packet_fields_witness :
  utf8_decode (b "DEV1<sendVal 0=23.5;1=NaN>CHK") = Some (raw_packet dev1_data1)
  ∧ (c_lt ∉ serial dev1_data1)
  ∧ (∃ rest, raw_packet dev1_data1 = serial dev1_data1 ++ c_lt :: rest)
  ∧ (c_gt ∉ checksum dev1_data1)
  ∧ checksum dev1_data1 `suffix_of` raw_packet dev1_data1.
Proof.
  apply (parsed_packet_fields float_of_str (new_server pyfloat)
           (b "DEV1<sendVal 0=23.5;1=NaN>CHK") dev1_data1).
  reflexivity.
Defined.

(** ** Decoding a packet written by a device *)

Lemma length_lstrip (s : pystr) : (length (lstrip s) ≤ length s)%nat.
Proof.
  induction s as [|c t IH]; simpl; [done|].
  destruct (py_isspace c); simpl; lia.
Qed.

Lemma lstrip_fixed (c : N) (t : pystr) :
  lstrip (c :: t) = c :: t → py_isspace c = false.
Proof.
  simpl. destruct (py_isspace c); [|done].
  intros H. pose proof (length_lstrip t) as Hl. rewrite H in Hl. simpl in Hl. lia.
Qed.

Lemma lstrip_app_fixed (a x : pystr) (c : N) :
  lstrip a = a → py_isspace c = false → lstrip (a ++ c :: x) = a ++ c :: x.
Proof.
  destruct a as [|a0 a]; simpl.
  - by intros _ ->.
  - intros Ha _. by rewrite (lstrip_fixed a0 a Ha).
Qed.

Lemma rstrip_app_fixed (a x : pystr) (c : N) :
  rstrip a = a → py_isspace c = false → rstrip (x ++ c :: a) = x ++ c :: a.
Proof.
  unfold rstrip. intros Ha Hc.
  assert (lstrip (rev a) = rev a) as Ha'.
  { apply (f_equal (@rev N)) in Ha. by rewrite rev_involutive in Ha. }
  rewrite rev_app_distr. simpl. rewrite <- app_assoc. simpl.
  rewrite (lstrip_app_fixed _ _ _ Ha' Hc).
  rewrite rev_app_distr. simpl. by rewrite !rev_involutive, <- app_assoc.
Qed.

Lemma remove_all_none (pat s : pystr) :
  contains pat s = false → remove_all pat s = s.
Proof.
  unfold remove_all. induction s as [|c t IH]; [done|].
  simpl contains. intros [Hs Ht]%orb_false_iff.
  change (remove_from pat (c :: t) 0)
    with (if startswith pat (c :: t)
          then remove_from pat t (Nat.pred (length pat))
          else c :: remove_from pat t 0).
  by rewrite Hs, IH.
Qed.

Lemma plain_spec (s : pystr) :
  plain s = true →
  (c_lt ∉ s) ∧ (c_gt ∉ s) ∧ (c_semi ∉ s) ∧ (c_eq ∉ s).
Proof.
  unfold plain. induction s as [|c t IH]; simpl.
  - intros _. by repeat split; intros ?%elem_of_nil.
  - rewrite !andb_true_iff, !negb_true_iff, !N.eqb_neq.
    intros [[[[? ?] ?] ?] Ht]. destruct (IH Ht) as (? & ? & ? & ?).
    rewrite !not_elem_of_cons. repeat split; congruence.
Qed.

Lemma assignment_ok_spec (a : pystr * pystr) :
  assignment_ok a = true →
  strip (token_of a) = token_of a
  ∧ split c_eq (token_of a) = [a.1; a.2]
  ∧ contains [c_eq] (token_of a) = true
  ∧ (c_lt ∉ token_of a) ∧ (c_gt ∉ token_of a) ∧ (c_semi ∉ token_of a).
Proof.
  unfold assignment_ok, token_of.
  rewrite !andb_true_iff, !bool_decide_eq_true.
  intros [[[(? & ? & ? & ?)%plain_spec (? & ? & ? & ?)%plain_spec] Hl] Hr].
  split_and!.
  - unfold strip. rewrite (lstrip_app_fixed _ _ _ Hl) by done.
    by apply rstrip_app_fixed.
  - by rewrite split_app, split_notin.
  - apply contains_char, elem_of_app. right. apply elem_of_cons. by left.
  - rewrite elem_of_app, elem_of_cons. by intros [?|[?|?]].
  - rewrite elem_of_app, elem_of_cons. by intros [?|[?|?]].
  - rewrite elem_of_app, elem_of_cons. by intros [?|[?|?]].
Qed.

Lemma lstrip_app_nonempty (x z : pystr) :
  x ≠ [] → lstrip x = x → lstrip (x ++ z) = x ++ z.
Proof.
  destruct x as [|c x]; [done|]. intros _ Hx. simpl.
  by rewrite (lstrip_fixed c x Hx).
Qed.

Lemma rstrip_app_nonempty (y z : pystr) :
  y ≠ [] → rstrip y = y → rstrip (z ++ y) = z ++ y.
Proof.
  unfold rstrip. intros Hy Hr.
  assert (lstrip (rev y) = rev y) as Hy'.
  { apply (f_equal (@rev N)) in Hr. by rewrite rev_involutive in Hr. }
  rewrite rev_app_distr, lstrip_app_nonempty; [|by destruct y using rev_ind;
    [|rewrite rev_app_distr]|done].
  by rewrite rev_app_distr, !rev_involutive.
Qed.

Lemma token_stripped (a : pystr * pystr) :
  assignment_ok a = true →
  token_of a ≠ [] ∧ lstrip (token_of a) = token_of a
  ∧ rstrip (token_of a) = token_of a.
Proof.
  unfold assignment_ok, token_of.
  rewrite !andb_true_iff, !bool_decide_eq_true. intros [[_ Hl] Hr].
  split_and!.
  - by destruct a.1.
  - by apply lstrip_app_fixed.
  - by apply rstrip_app_fixed.
Qed.

Lemma join_cons (sep : N) (x y : pystr) (l : list pystr) :
  join sep (x :: y :: l) = x ++ sep :: join sep (y :: l).
Proof. done. Qed.

Lemma join_stripped (sep : N) (tokens : list pystr) :
  tokens ≠ [] →
  Forall (λ t, t ≠ [] ∧ lstrip t = t ∧ rstrip t = t) tokens →
  join sep tokens ≠ [] ∧ lstrip (join sep tokens) = join sep tokens
  ∧ rstrip (join sep tokens) = join sep tokens.
Proof.
  intros Hne Hall. induction Hall as [|x l (Hx & Hl & Hr) Hall IH]; [done|].
  destruct l as [|y l]; [done|].
  destruct IH as (IH1 & IH2 & IH3); [done|]. rewrite join_cons.
  split_and!.
  - by destruct x.
  - by apply lstrip_app_nonempty.
  - change (x ++ sep :: join sep (y :: l))
      with (x ++ [sep] ++ join sep (y :: l)).
    rewrite app_assoc. by apply rstrip_app_nonempty.
Qed.

Lemma split_join (sep : N) (tokens : list pystr) :
  tokens ≠ [] → Forall (λ t, sep ∉ t) tokens →
  split sep (join sep tokens) = tokens.
Proof.
  intros Hne Hall. induction Hall as [|x l Hx Hall IH]; [done|].
  destruct l as [|y l]; [by apply split_notin|].
  by rewrite join_cons, split_app, IH.
Qed.

Lemma join_notin (sep c : N) (tokens : list pystr) :
  c ≠ sep → Forall (λ t, c ∉ t) tokens → c ∉ join sep tokens.
Proof.
  intros Hc Hall. induction Hall as [|x l Hx Hall IH]; [by intros ?%elem_of_nil|].
  destruct l as [|y l]; [done|].
  rewrite join_cons, elem_of_app, elem_of_cons. by intros [?|[?|?]].
Qed.

(** The content between [<] and [>]. *)
Lemma content_delimited (x rest : pystr) :
  c_lt ∉ x → c_gt ∉ x →
  before_first c_gt (before_first c_lt (x ++ c_gt :: rest)) = x.
Proof.
  induction x as [|c t IH]; simpl; [done|].
  intros [Hl Ht]%not_elem_of_cons [Hg Ht']%not_elem_of_cons.
  destruct (N.eqb_spec c c_lt); [congruence|]. simpl.
  destruct (N.eqb_spec c c_gt); [congruence|]. by rewrite IH.
Qed.

Section Wire.
Context {float : Type} (py_float : pystr → option float).

Lemma parse_channel_token (d : gmap pystr (option float)) (a : pystr * pystr) :
  assignment_ok a = true →
  (parse_channel py_float d (token_of a)).2 = inr (assign py_float d a).
Proof.
  intros (Hs & Hsp & Hc & _)%assignment_ok_spec.
  unfold parse_channel, assign. rewrite Hc, Hs, Hsp, parse_value_total.
  case_decide; [done|]. by destruct (py_float a.2).
Qed.

Lemma parse_channels_tokens (d : gmap pystr (option float))
    (assignments : list (pystr * pystr)) :
  forallb assignment_ok assignments = true →
  (parse_channels py_float d (map token_of assignments)).2
  = inr (fold_left (assign py_float) assignments d).
Proof.
  revert d. induction assignments as [|a l IH]; intros d; simpl; [done|].
  intros [Ha Hl]%andb_true_iff.
  pose proof (parse_channel_token d a Ha) as Hc. unfold_M.
  destruct (parse_channel py_float d (token_of a)) as [l1 [e|d']];
    simpl in *; [done|].
  injection Hc as ->. specialize (IH (assign py_float d a) Hl).
  by destruct (parse_channels py_float _ (map token_of l)).
Qed.
End Wire.

(** A packet written as [serial<sendVal k1=v1;...;kn=vn>chk], with no
    separator and no marker inside the channel numbers and the values and
    no white space around the tokens, is parsed to its serial, its check
    sum and the channels assigned in this order: [None] for a value that
    is [NaN], the number for a value that [float] reads, nothing for any
    other value. It is an end marker exactly when it assigns nothing. *)
Theorem decode_wire_packet {float} (py_float : pystr → option float)
    (serial chk : pystr) (assignments : list (pystr * pystr)) :
  contains [c_lt] serial = false →
  contains [c_gt] chk = false →
  forallb assignment_ok assignments = true →
  contains sendVal (join c_semi (map token_of assignments)) = false →
  (parse_packet_str py_float (wire_packet serial assignments chk)).2
  = inr {| serial := serial;
           channel_data := fold_left (assign py_float) assignments ∅;
           checksum := chk;
           raw_packet := wire_packet serial assignments chk;
           is_end_marker := bool_decide (assignments = []) |}.
Proof.
  intros Hs%contains_char_false Hk%contains_char_false Hok Hm.
  set (body := join c_semi (map token_of assignments)) in *.
  assert (Forall (λ a, assignment_ok a = true) assignments) as Hall.
  { apply Forall_forall. intros a Ha%list_elem_of_In.
    by apply (proj1 (forallb_forall _ _) Hok). }
  assert (∀ c, c = c_lt ∨ c = c_gt → c ∉ sendVal ++ 32 :: body) as Hplain.
  { intros c Hc. rewrite elem_of_app, elem_of_cons.
    intros [Hin|[->|Hin]].
    - revert Hin. apply contains_char_false. by destruct Hc as [-> | ->].
    - by destruct Hc.
    - revert Hin. apply join_notin; [by destruct Hc as [-> | ->]|].
      apply Forall_forall.
      intros t (a & <- & Ha%list_elem_of_In)%list_elem_of_In%in_map_iff.
      rewrite Forall_forall in Hall.
      destruct (assignment_ok_spec a (Hall a Ha)) as (_ & _ & _ & ? & ? & _).
      by destruct Hc as [-> | ->]. }
  rewrite parse_packet_str_eq. unfold wire_packet. fold body.
  rewrite (after_first_app _ _ _ Hs), (before_first_app _ _ _ Hs).
  rewrite content_delimited by (apply Hplain; auto).
  replace (after_last c_gt (serial ++ c_lt :: (sendVal ++ 32 :: body) ++ c_gt :: chk))
    with chk.
  2:{ change (serial ++ c_lt :: (sendVal ++ 32 :: body) ++ c_gt :: chk)
        with (serial ++ [c_lt] ++ (sendVal ++ 32 :: body) ++ c_gt :: chk).
      by rewrite !app_assoc, after_last_app. }
  unfold parse_content, parse_channel_data.
  replace (contains sendVal (sendVal ++ 32 :: body)) with true by done.
  replace (remove_all sendVal (sendVal ++ 32 :: body)) with (32 :: body).
  2:{ unfold remove_all, sendVal. simpl.
      f_equal. symmetry. by apply remove_all_none. }
  replace (strip (32 :: body)) with (strip body) by done.
  destruct assignments as [|a l].
  - by unfold_M.
  - destruct (join_stripped c_semi (map token_of (a :: l))) as (Hne & Hl & Hr).
    { done. }
    { apply Forall_forall.
      intros t (a' & <- & Ha%list_elem_of_In)%list_elem_of_In%in_map_iff.
      rewrite Forall_forall in Hall. by apply token_stripped, Hall. }
    fold body in Hne, Hl, Hr.
    assert (strip body = body) as Hstrip by (unfold strip; by rewrite Hl, Hr).
    assert (split c_semi body = map token_of (a :: l)) as Hsplit.
    { apply split_join; [done|]. apply Forall_forall.
      intros t (a' & <- & Ha%list_elem_of_In)%list_elem_of_In%in_map_iff.
      rewrite Forall_forall in Hall.
      by destruct (assignment_ok_spec a' (Hall a' Ha)) as (_ & _ & _ & _ & _ & ?). }
    pose proof (parse_channels_tokens py_float ∅ (a :: l) Hok) as Hch.
    cbv zeta. rewrite Hstrip. clearbody body.
    destruct body as [|c0 body0]; [done|].
    rewrite Hsplit. unfold_M.
    destruct (parse_channels py_float ∅ (map token_of (a :: l))) as [l1 [e|d]];
      simpl in *; [done|].
    injection Hch as ->. by rewrite Hstrip.
Qed.

Lemma decode_wire_packet_witness :
  (parse_packet_str float_of_str
     (wire_packet (u "DEV1") [(u "0", u "23.5"); (u "1", u "NaN"); (u "2", u "x");
                              (u "0", u "7")] (u "CHK"))).2
  = inr {| serial := u "DEV1";
           channel_data :=
             fold_left (assign float_of_str)
               [(u "0", u "23.5"); (u "1", u "NaN"); (u "2", u "x"); (u "0", u "7")] ∅;
           checksum := u "CHK";
           raw_packet :=
             wire_packet (u "DEV1") [(u "0", u "23.5"); (u "1", u "NaN"); (u "2", u "x");
                                     (u "0", u "7")] (u "CHK");
           is_end_marker :=
             bool_decide ([(u "0", u "23.5"); (u "1", u "NaN"); (u "2", u "x");
                           (u "0", u "7")] = []) |}.
Proof.
  apply (decode_wire_packet float_of_str (u "DEV1") (u "CHK")
           [(u "0", u "23.5"); (u "1", u "NaN"); (u "2", u "x"); (u "0", u "7")]).
  - reflexivity.
  - reflexivity.
  - reflexivity.
  - reflexivity.
Defined.

(** * Further properties of the buffer and of the loop *)

Section Loop.
Context {float : Type} (py_float : pystr → option float).
Implicit Types (self : IoTUDPServer float) (p q t : parsed float)
  (ps : list (parsed float)) (D : pystr) (l : list log_entry).

Lemma add_log_add_log l l' self :
  add_log l' (add_log l self) = add_log (l ++ l') self.
Proof. unfold add_log. simpl. by rewrite app_assoc. Qed.

Lemma add_log_nil self : add_log [] self = self.
Proof. unfold add_log. rewrite app_nil_r. by destruct self. Qed.

(** The loop body reads nothing of the log. *)
Lemma dispatch_add_log l self p :
  dispatch (add_log l self) p = add_log l (dispatch self p).
Proof.
  destruct (is_end_marker p) eqn:Hp.
  - destruct (packet_buffer self !! serial p) as [d|] eqn:E.
    + by rewrite (dispatch_end_pending _ _ d Hp E),
                 (dispatch_end_pending (add_log l self) _ d Hp E).
    + by rewrite (dispatch_end_none _ _ Hp E),
                 (dispatch_end_none (add_log l self) _ Hp E).
  - by rewrite !(dispatch_data _ _ Hp).
Qed.

Lemma dispatch_all_add_log l self ps :
  dispatch_all (add_log l self) ps = add_log l (dispatch_all self ps).
Proof.
  revert self. induction ps as [|p ps IH]; intros self; [done|].
  simpl. by rewrite dispatch_add_log, IH.
Qed.

Lemma buffer_size_dispatch self p : buffer_size (dispatch self p) = buffer_size self.
Proof.
  destruct (is_end_marker p) eqn:Hp.
  - destruct (packet_buffer self !! serial p) as [d|] eqn:E.
    + by rewrite (dispatch_end_pending _ _ d Hp E).
    + by rewrite (dispatch_end_none _ _ Hp E).
  - by rewrite (dispatch_data _ _ Hp).
Qed.

Lemma handle_datagram_eq self (data : list byte) :
  handle_datagram py_float self data
  = match parse_packet_try py_float data with
    | (l, inr p) => add_log l (dispatch self p)
    | (l, inl e) => add_log (l ++ [Error_parsing_packet e]) self
    end.
Proof.
  unfold handle_datagram. rewrite parse_packet_eq.
  destruct (parse_packet_try py_float data) as [l [e|p]]; [done|].
  apply dispatch_add_log.
Qed.
End Loop.

(** The receive loop is the loop body run on the packets that parse, in
    arrival order: a datagram that does not parse adds to the log and
    changes nothing else, and the log has no part in what is buffered and
    saved. *)
Theorem start_dispatches_received {float} (py_float : pystr → option float)
    (self : IoTUDPServer float) (datagrams : list (list byte)) :
  ∃ l, start py_float self datagrams
       = add_log l (dispatch_all self
                      (received py_float (buffer_size self) datagrams)).
Proof.
  revert self. induction datagrams as [|dg dgs IH]; intros self.
  - exists []. by rewrite add_log_nil.
  - unfold start, received in *. simpl fold_left. simpl omap.
    destruct (IH (handle_datagram py_float self (take (buffer_size self) dg)))
      as [l' ->].
    rewrite handle_datagram_eq.
    destruct (parse_packet_try py_float (take (buffer_size self) dg))
      as [l [e|p]]; simpl.
    + exists ((l ++ [Error_parsing_packet e]) ++ l').
      by rewrite dispatch_all_add_log, add_log_add_log.
    + exists (l ++ l').
      by rewrite buffer_size_dispatch, dispatch_all_add_log, add_log_add_log.
Qed.

Section Invariants.
Context {float : Type}.
Implicit Types (self : IoTUDPServer float) (p q t : parsed float)
  (ps : list (parsed float)) (D : pystr).

Lemma history_dispatch self p D :
  all_dense self →
  history D (dispatch self p)
  = history D self
    ++ (if decide (serial p = D ∧ is_end_marker p = false)
        then [raw_packet p] else []).
Proof.
  intros Hd. unfold history. destruct (is_end_marker p) eqn:Hp.
  - rewrite decide_False by (by intros [_ ?]). rewrite app_nil_r.
    destruct (packet_buffer self !! serial p) as [d|] eqn:E.
    + rewrite (dispatch_end_pending _ _ d Hp E). simpl.
      rewrite filter_app, map_app, concat_app.
      destruct (decide (serial p = D)) as [<-|HD].
      * rewrite filter_cons_True by done. simpl.
        by rewrite lookup_delete_eq, E, combine_raw, !app_nil_r.
      * rewrite filter_cons_False by done. simpl.
        by rewrite lookup_delete_ne, app_nil_r.
    + by rewrite (dispatch_end_none _ _ Hp E).
  - rewrite (dispatch_data _ _ Hp). simpl.
    destruct (decide (serial p = D)) as [<-|HD].
    + rewrite decide_True by done. rewrite lookup_insert_eq. simpl.
      assert (dense (default [] (packet_buffer self !! serial p))) as Hdef.
      { destruct (packet_buffer self !! serial p) as [d|] eqn:E; [|done].
        by apply (Hd (serial p)). }
      destruct (dense_set _ p Hdef) as [-> _].
      unfold dict_values. by rewrite !map_app, app_assoc.
    + rewrite decide_False by (by intros [? _]).
      by rewrite lookup_insert_ne, app_nil_r.
Qed.

Lemma pending_are_data_dispatch self p :
  pending_are_data self → pending_are_data (dispatch self p).
Proof.
  intros Hinv. destruct (is_end_marker p) eqn:Hp.
  - destruct (packet_buffer self !! serial p) as [d|] eqn:E.
    + rewrite (dispatch_end_pending _ _ d Hp E). unfold pending_are_data. simpl.
      intros D d' [_ Hd']%lookup_delete_Some. by apply Hinv.
    + by rewrite (dispatch_end_none _ _ Hp E).
  - rewrite (dispatch_data _ _ Hp). unfold pending_are_data. simpl.
    intros D d'. rewrite lookup_insert. case_decide as HD; [|by apply Hinv].
    intros [= <-]. split.
    + by destruct (default [] (packet_buffer self !! serial p)) as [|[k v] d0];
        simpl; [|case_decide].
    + intros q [->|Hq]%elem_of_dict_set_values; [by subst|].
      destruct (packet_buffer self !! serial p) as [d0|] eqn:E; simpl in Hq.
      * subst D. by apply (Hinv _ _ E).
      * by apply elem_of_nil in Hq.
Qed.

Lemma dispatch_end_clears self t :
  is_end_marker t = true → packet_buffer (dispatch self t) !! serial t = None.
Proof.
  intros Ht. destruct (packet_buffer self !! serial t) as [d|] eqn:E.
  - rewrite (dispatch_end_pending _ _ d Ht E). simpl. apply lookup_delete_eq.
  - by rewrite (dispatch_end_none _ _ Ht E).
Qed.
End Invariants.

(** In every state that the loop reaches, the keys of the inner dict of a
    device are 0, 1, ..., n-1 in this order: [len] of the dict is a new
    key, and a data packet goes after the packets that are pending. *)
Theorem start_keeps_dense {float} (py_float : pystr → option float)
    (self : IoTUDPServer float) (datagrams : list (list byte)) :
  all_dense self → all_dense (start py_float self datagrams).
Proof.
  revert self. induction datagrams as [|dg dgs IH]; intros self Hd; [done|].
  unfold start in *. simpl fold_left. apply IH.
  rewrite handle_datagram_eq.
  destruct (parse_packet_try py_float (take (buffer_size self) dg))
    as [l [e|p]]; unfold all_dense, add_log; simpl; [done|].
  by apply dispatch_dense.
Qed.

Lemma start_keeps_dense_witness :
  all_dense (start float_of_str (new_server pyfloat)
               [b "DEV1<sendVal 0=23.5;1=NaN>CHK"; b "junk";
                b "DEV1<sendVal 1=4;2=19.1>CHK"]).
Proof.
  apply (start_keeps_dense float_of_str (new_server pyfloat)).
  apply new_server_dense.
Defined.

(** No data packet is lost, repeated or moved: for every device, the raw
    texts of its saved readings followed by those of its pending packets
    are the raw texts of its data packets, in arrival order. *)
Theorem dispatch_all_keeps_every_packet {float}
    (self : IoTUDPServer float) (ps : list (parsed float)) (D : pystr) :
  all_dense self →
  history D (dispatch_all self ps)
  = history D self
    ++ map raw_packet
         (filter (λ p, serial p = D ∧ is_end_marker p = false) ps).
Proof.
  revert self. induction ps as [|p ps IH]; intros self Hd.
  - by rewrite app_nil_r.
  - simpl. rewrite IH by by apply dispatch_dense.
    rewrite history_dispatch by done. rewrite <- app_assoc. f_equal.
    case_decide.
    + by rewrite filter_cons_True.
    + by rewrite filter_cons_False.
Qed.

Lemma dispatch_all_keeps_every_packet_witness :
  history (u "DEV1")
    (dispatch_all (new_server pyfloat)
       [dev1_data1; dev2_data; dev1_end; dev1_data2; dev2_end])
  = history (u "DEV1") (new_server pyfloat)
    ++ map raw_packet
         (filter (λ p, serial p = u "DEV1" ∧ is_end_marker p = false)
            [dev1_data1; dev2_data; dev1_end; dev1_data2; dev2_end]).
Proof.
  apply (dispatch_all_keeps_every_packet (new_server pyfloat)).
  apply new_server_dense.
Defined.

(** The buffer never holds an empty entry or an end marker, and every
    pending packet is stored under its own serial; so every reading that
    the loop saves has at least one raw packet. *)
Theorem dispatch_all_pending_are_data {float}
    (self : IoTUDPServer float) (ps : list (parsed float)) :
  pending_are_data self →
  Forall (λ r, r_raw_packets r ≠ []) (saved self) →
  pending_are_data (dispatch_all self ps)
  ∧ Forall (λ r, r_raw_packets r ≠ []) (saved (dispatch_all self ps)).
Proof.
  revert self. induction ps as [|p ps IH]; intros self Hinv Hs; [done|].
  simpl. apply IH; [by apply pending_are_data_dispatch|].
  destruct (dispatch_saved self p) as [->|(d & _ & E & ->)]; [done|].
  apply Forall_app. split; [done|]. apply Forall_singleton. simpl.
  rewrite combine_raw. destruct (Hinv _ _ E) as [Hne _].
  by destruct d.
Qed.

Lemma dispatch_all_pending_are_data_witness :
  pending_are_data
    (dispatch_all (new_server pyfloat) [dev1_end; dev1_data1; dev2_data; dev1_end])
  ∧ Forall (λ r, r_raw_packets r ≠ [])
      (saved (dispatch_all (new_server pyfloat)
                [dev1_end; dev1_data1; dev2_data; dev1_end])).
Proof.
  apply (dispatch_all_pending_are_data (new_server pyfloat)).
  - intros D d. unfold new_server. simpl. by rewrite lookup_empty.
  - constructor.
Defined.

(** A second end marker of a device changes nothing: after an end marker
    the device has nothing pending, whatever it had before. *)
Theorem end_marker_twice {float} (self : IoTUDPServer float) (t t' : parsed float) :
  is_end_marker t = true → is_end_marker t' = true → serial t' = serial t →
  packet_buffer (dispatch self t) !! serial t = None
  ∧ dispatch (dispatch self t) t' = dispatch self t.
Proof.
  intros Ht Ht' Hs. split; [by apply dispatch_end_clears|].
  apply dispatch_end_none; [done|]. rewrite Hs. by apply dispatch_end_clears.
Qed.

Lemma end_marker_twice_witness :
  let self := dispatch (new_server pyfloat) dev1_data1 in
  packet_buffer (dispatch self dev1_end) !! serial dev1_end = None
  ∧ dispatch (dispatch self dev1_end) dev1_end = dispatch self dev1_end.
Proof.
  apply (end_marker_twice (dispatch (new_server pyfloat) dev1_data1)
           dev1_end dev1_end); reflexivity.
Defined.

(** Readings are only ever added, at the end and at most one for each end
    marker; the size of the receive buffer never changes. *)
Theorem dispatch_all_appends_readings {float}
    (self : IoTUDPServer float) (ps : list (parsed float)) :
  saved self `prefix_of` saved (dispatch_all self ps)
  ∧ (length (saved (dispatch_all self ps))
     ≤ length (saved self) + length (filter (λ p, is_end_marker p = true) ps))%nat
  ∧ buffer_size (dispatch_all self ps) = buffer_size self.
Proof.
  revert self. induction ps as [|p ps IH]; intros self.
  - simpl. split; [done|]. split; [lia | done].
  - simpl. destruct (IH (dispatch self p)) as (IH1 & IH2 & IH3).
    rewrite IH3, buffer_size_dispatch.
    destruct (dispatch_saved self p) as [Hs|(d & Hp & _ & Hs)]; rewrite Hs in *.
    + split_and!; [done | | done].
      destruct (decide (is_end_marker p = true)).
      * rewrite filter_cons_True by done. simpl. lia.
      * by rewrite filter_cons_False.
    + split_and!; [| | done].
      * etrans; [|done]. by apply prefix_app_r.
      * rewrite filter_cons_True by done. rewrite length_app in IH2.
        simpl in *. lia.
Qed.

(** [process_complete_dataset] on a serial with nothing pending does not
    raise: the [defaultdict] gives it an empty dict, an empty reading is
    saved, and the buffer is as before. The loop never calls it so. *)
Theorem process_complete_dataset_unknown_serial {float}
    (self : IoTUDPServer float) (D : pystr) :
  packet_buffer self !! D = None →
  process_complete_dataset self D
  = mk_server (buffer_size self) (packet_buffer self) (log self)
      (saved self ++ [mk_reading D ∅ []]).
Proof.
  intros E. unfold process_complete_dataset, defaultdict_getitem.
  rewrite E. simpl. by rewrite delete_insert_id.
Qed.

Lemma process_complete_dataset_unknown_serial_witness :
  process_complete_dataset (new_server pyfloat) (u "DEV1")
  = mk_server (buffer_size (new_server pyfloat))
      (packet_buffer (new_server pyfloat)) (log (new_server pyfloat))
      (saved (new_server pyfloat) ++ [mk_reading (u "DEV1") ∅ []]).
Proof.
  apply (process_complete_dataset_unknown_serial (new_server pyfloat) (u "DEV1")).
  reflexivity.
Defined.

(** ** More on the merge *)

Section Merge.
Context {float : Type}.
Implicit Types (p : parsed float) (fs : list (parsed float)).

Lemma combine_acc fs (c : gmap pystr (option float)) (r : list pystr) :
  fold_left
    (fun acc packet_info =>
       (channel_data packet_info ∪ acc.1, acc.2 ++ [raw_packet packet_info]))
    fs (c, r)
  = ((combine fs).1 ∪ c, r ++ (combine fs).2).
Proof.
  unfold combine. revert c r. induction fs as [|p fs IH]; intros c r; simpl.
  - by rewrite (left_id_L ∅ (∪)), app_nil_r.
  - rewrite IH, (IH (channel_data p ∪ ∅) [raw_packet p]). simpl.
    by rewrite (right_id_L ∅ (∪)), (assoc_L (∪)), <- app_assoc.
Qed.
End Merge.

(** The reading of two runs of packets put together is the reading of the
    second run laid over the reading of the first: its channels win, and
    its raw packets come after. *)
Theorem combine_app {float} (fs1 fs2 : list (parsed float)) :
  combine (fs1 ++ fs2)
  = ((combine fs2).1 ∪ (combine fs1).1, (combine fs1).2 ++ (combine fs2).2).
Proof.
  unfold combine at 1. rewrite fold_left_app.
  fold (combine fs1). destruct (combine fs1) as [c r] eqn:E.
  by rewrite combine_acc.
Qed.

(** A channel is in the merged reading exactly when it is in the channels
    of some packet, and the reading has one raw text for each packet. *)
Theorem combine_has_the_channels_of_the_packets {float}
    (fs : list (parsed float)) (k : pystr) :
  (is_Some ((combine fs).1 !! k)
   ↔ ∃ p, p ∈ fs ∧ is_Some (channel_data p !! k))
  ∧ length (combine fs).2 = length fs.
Proof.
  split; [|by rewrite combine_raw, length_map].
  rewrite combine_channels. induction fs as [|p fs IH]; simpl.
  - split; [by intros [? ?] | by intros (? & ?%elem_of_nil & _)].
  - destruct (last_write_wins k (map channel_data fs)) as [v|].
    + split; [|by eauto]. intros _.
      destruct (proj1 IH) as (q & Hq & Hk); [by eauto|].
      exists q. split; [by apply elem_of_cons; right | done].
    + split.
      * intros Hk. exists p. split; [by apply elem_of_cons; left | done].
      * intros (q & [->|Hq]%elem_of_cons & Hk); [done|].
        destruct (proj2 IH) as [? ?]; [by eauto | done].
Qed.

(** ** The check sum *)

Section Checksum.
Context {float : Type}.
Implicit Types (self : IoTUDPServer float) (p : parsed float)
  (ps : list (parsed float)) (c : pystr).

Lemma combine_with_checksum c ps : combine (map (with_checksum c) ps) = combine ps.
Proof.
  unfold combine. generalize (∅ : gmap pystr (option float), @nil pystr).
  induction ps as [|p ps IH]; intros acc; [done|]. simpl. apply IH.
Qed.

Lemma dict_values_with_checksum c (d : pydict nat (parsed float)) :
  dict_values (map (λ kv, (kv.1, with_checksum c kv.2)) d)
  = map (with_checksum c) (dict_values d).
Proof. unfold dict_values. rewrite !map_map. done. Qed.

Lemma dict_set_with_checksum c (d : pydict nat (parsed float)) (k : nat) p :
  dict_set k (with_checksum c p) (map (λ kv, (kv.1, with_checksum c kv.2)) d)
  = map (λ kv, (kv.1, with_checksum c kv.2)) (dict_set k p d).
Proof.
  induction d as [|[k' v'] d IH]; simpl; [done|].
  case_decide; simpl; [done|]. by rewrite IH.
Qed.

Lemma dispatch_with_checksums c self p :
  dispatch (with_checksums c self) (with_checksum c p)
  = with_checksums c (dispatch self p).
Proof.
  destruct (is_end_marker p) eqn:Hp.
  - destruct (packet_buffer self !! serial p) as [d|] eqn:E.
    + rewrite (dispatch_end_pending _ _ d Hp E).
      rewrite (dispatch_end_pending (with_checksums c self) (with_checksum c p)
                 (map (λ kv, (kv.1, with_checksum c kv.2)) d) Hp)
        by (simpl; by rewrite lookup_fmap, E).
      unfold with_checksums. simpl.
      by rewrite fmap_delete, dict_values_with_checksum, combine_with_checksum.
    + rewrite (dispatch_end_none _ _ Hp E).
      apply dispatch_end_none; [done|]. simpl. by rewrite lookup_fmap, E.
  - rewrite (dispatch_data _ _ Hp).
    rewrite (dispatch_data (with_checksums c self) (with_checksum c p) Hp).
    unfold with_checksums. simpl. rewrite fmap_insert, lookup_fmap. f_equal.
    destruct (packet_buffer self !! serial p) as [d|]; simpl.
    + by rewrite length_map, dict_set_with_checksum.
    + done.
Qed.
End Checksum.

(** The check sum is recorded and never read: with any other check sums
    in the packets the loop saves the same readings, and its buffer
    differs in the check sums only. *)
Theorem readings_ignore_the_checksum {float} (c : pystr)
    (self : IoTUDPServer float) (ps : list (parsed float)) :
  dispatch_all (with_checksums c self) (map (with_checksum c) ps)
  = with_checksums c (dispatch_all self ps)
  ∧ saved (dispatch_all (with_checksums c self) (map (with_checksum c) ps))
    = saved (dispatch_all self ps).
Proof.
  assert (dispatch_all (with_checksums c self) (map (with_checksum c) ps)
          = with_checksums c (dispatch_all self ps)) as H.
  { revert self. induction ps as [|p ps IH]; intros self; [done|].
    simpl. by rewrite dispatch_with_checksums, IH. }
  split; [done|]. by rewrite H.
Qed.

(** * The rows of the CSV file *)

Section CsvFacts.
Context {float : Type} (py_int : pystr → option Z).
Implicit Types (channel_data : gmap pystr (option float)) (timestamp k : pystr)
  (channels : list Z) (n : Z).

Lemma elem_of_keys channel_data k :
  k ∈ (map_to_list channel_data).*1 ↔ is_Some (channel_data !! k).
Proof.
  rewrite list_elem_of_fmap. split.
  - intros ([k' v] & -> & Hin%elem_of_map_to_list). by exists v.
  - intros [v Hv]. exists (k, v). by rewrite elem_of_map_to_list.
Qed.

Lemma ints_of_keys (keys : list pystr) (ints : list Z) n :
  Forall2 (λ k i, py_int k = Some i) keys ints →
  n ∈ ints ↔ ∃ k, k ∈ keys ∧ py_int k = Some n.
Proof.
  induction 1 as [|k i keys ints Hk _ IH].
  - split; [by intros ?%elem_of_nil | by intros (? & ?%elem_of_nil & _)].
  - rewrite elem_of_cons, IH. split.
    + intros [->|(k' & ? & ?)].
      * exists k. split; [by apply elem_of_cons; left | done].
      * exists k'. split; [by apply elem_of_cons; right | done].
    + intros (k' & [->|?]%elem_of_cons & Hk').
      * left. congruence.
      * right. by exists k'.
Qed.

(** The sorted channel numbers: there are none exactly when some key is
    not read by [int]. *)
Lemma sorted_channels_None channel_data :
  sorted_channels py_int channel_data = None
  ↔ ∃ k, is_Some (channel_data !! k) ∧ py_int k = None.
Proof.
  unfold sorted_channels. rewrite fmap_None, mapM_None, Exists_exists.
  by setoid_rewrite elem_of_keys.
Qed.

Lemma sorted_channels_Some channel_data channels :
  sorted_channels py_int channel_data = Some channels →
  Sorted Z.le channels
  ∧ length channels = size channel_data
  ∧ ∀ n, n ∈ channels ↔ ∃ k, is_Some (channel_data !! k) ∧ py_int k = Some n.
Proof.
  unfold sorted_channels.
  intros (ints & Hints%mapM_Some & ->)%fmap_Some.
  split_and!.
  - apply Sorted_merge_sort. intros x y. lia.
  - rewrite merge_sort_Permutation, <- (Forall2_length _ _ _ Hints).
    by rewrite length_fmap, length_map_to_list.
  - intros n. rewrite merge_sort_Permutation, (ints_of_keys _ _ _ Hints).
    by setoid_rewrite elem_of_keys.
Qed.

Lemma row_values_None channel_data channels :
  row_values channel_data channels = None
  ↔ ∃ n, n ∈ channels ∧ channel_data !! str_of_int n = None.
Proof.
  unfold row_values. rewrite mapM_None, Exists_exists.
  by setoid_rewrite fmap_None.
Qed.

Lemma row_values_Some channel_data channels (values : list (cell float)) :
  row_values channel_data channels = Some values →
  Forall2 (λ n v, ∃ value, channel_data !! str_of_int n = Some value
                           ∧ v = cell_of value) channels values.
Proof.
  unfold row_values. intros H%mapM_Some.
  eapply Forall2_impl; [done|]. simpl.
  intros n v (value & ? & ?)%fmap_Some. by exists value.
Qed.

(** The three ways in which the writing ends. *)
Lemma write_to_csv_outcome (file_exists : bool) timestamp channel_data :
  match sorted_channels py_int channel_data with
  | None =>
    write_to_csv py_int file_exists timestamp channel_data = ([], Some CsvValueError)
  | Some channels =>
    match row_values channel_data channels with
    | None =>
      write_to_csv py_int file_exists timestamp channel_data
      = (if file_exists then [] else [header channels], Some CsvKeyError)
    | Some values =>
      write_to_csv py_int file_exists timestamp channel_data
      = ((if file_exists then [] else [header channels])
           ++ [Text timestamp :: values], None)
    end
  end.
Proof.
  unfold write_to_csv.
  destruct (sorted_channels py_int channel_data) as [channels|];
    [|by destruct file_exists].
  by destruct (row_values channel_data channels), file_exists.
Qed.
End CsvFacts.

(** The row of a reading is written, with no exception, exactly when
    [int] reads every channel key and the decimal text of the number it
    reads is itself a key of the reading. *)
Theorem write_to_csv_succeeds_iff {float} (py_int : pystr → option Z)
    (file_exists : bool) (timestamp : pystr)
    (channel_data : gmap pystr (option float)) :
  (write_to_csv py_int file_exists timestamp channel_data).2 = None
  ↔ ∀ k, is_Some (channel_data !! k) →
         ∃ n, py_int k = Some n ∧ is_Some (channel_data !! str_of_int n).
Proof.
  pose proof (write_to_csv_outcome py_int file_exists timestamp channel_data) as H.
  destruct (sorted_channels py_int channel_data) as [channels|] eqn:Hs.
  - destruct (sorted_channels_Some _ _ _ Hs) as (_ & _ & Hin).
    destruct (row_values channel_data channels) as [values|] eqn:Hr; rewrite H.
    + split; [intros _|done]. intros k Hk.
      destruct (py_int k) as [n|] eqn:Hn.
      * exists n. split; [done|].
        apply row_values_Some in Hr.
        assert (n ∈ channels) as Hch by (apply Hin; by exists k).
        apply list_elem_of_lookup in Hch as [i Hi].
        destruct (Forall2_lookup_l _ _ _ _ _ Hr Hi) as (v & _ & value & -> & _).
        done.
      * assert (sorted_channels py_int channel_data = None) as Hnone
          by (apply sorted_channels_None; by exists k).
        congruence.
    + split; [done|]. intros Hall. exfalso.
      apply row_values_None in Hr as (n & (k & Hk & Hn)%Hin & Hnone).
      destruct (Hall k Hk) as (n' & Hn' & [v Hv]). congruence.
  - rewrite H. split; [done|]. intros Hall. exfalso.
    apply sorted_channels_None in Hs as (k & Hk & Hn).
    destruct (Hall k Hk) as (n & ? & _). congruence.
Qed.

(** A key that [int] does not read, such as [a] or [1.5], stops the
    writing with [ValueError] before anything is written: neither the
    header of a new file nor the row. *)
Theorem write_to_csv_value_error {float} (py_int : pystr → option Z)
    (file_exists : bool) (timestamp : pystr)
    (channel_data : gmap pystr (option float)) :
  (∃ k, is_Some (channel_data !! k) ∧ py_int k = None)
  ↔ write_to_csv py_int file_exists timestamp channel_data
    = ([], Some CsvValueError).
Proof.
  rewrite <- sorted_channels_None.
  pose proof (write_to_csv_outcome py_int file_exists timestamp channel_data) as H.
  destruct (sorted_channels py_int channel_data) as [channels|]; [|done].
  split; [done|].
  destruct (row_values channel_data channels); rewrite H; [|done].
  destruct file_exists; simpl; intros [= Habs]; by destruct (app_cons_not_nil _ _ _).
Qed.

(** When [int] reads every key and the decimal text of some number read
    is not a key, such as for the key [01] alone, line 141 raises
    [KeyError]: the row is not written, and a new file is left with its
    header only. *)
Theorem write_to_csv_key_error {float} (py_int : pystr → option Z)
    (file_exists : bool) (timestamp : pystr)
    (channel_data : gmap pystr (option float))
    (written : list (list (cell float))) :
  write_to_csv py_int file_exists timestamp channel_data
  = (written, Some CsvKeyError)
  ↔ ∃ channels,
      sorted_channels py_int channel_data = Some channels
      ∧ written = (if file_exists then [] else [header channels])
      ∧ ∃ k n, is_Some (channel_data !! k) ∧ py_int k = Some n
               ∧ channel_data !! str_of_int n = None.
Proof.
  pose proof (write_to_csv_outcome py_int file_exists timestamp channel_data) as H.
  destruct (sorted_channels py_int channel_data) as [channels|] eqn:Hs.
  - destruct (sorted_channels_Some _ _ _ Hs) as (_ & _ & Hin).
    destruct (row_values channel_data channels) as [values|] eqn:Hr; rewrite H.
    + split; [done|]. intros (chs & [= <-] & _ & k & n & Hk & Hn & Hnone).
      assert (row_values channel_data channels = None) as Habs.
      { apply row_values_None. exists n. split; [|done]. apply Hin. by exists k. }
      congruence.
    + split.
      * intros [= <-]. exists channels. split_and!; [done..|].
        apply row_values_None in Hr as (n & (k & Hk & Hn)%Hin & Hnone).
        by exists k, n.
      * by intros (chs & [= <-] & -> & _).
  - rewrite H. split; [done | by intros (chs & ? & _)].
Qed.

(** A row that is written has the time stamp and then one value for each
    key of the reading, in ascending order of the channel numbers, [None]
    as the text [NaN]; each value is the one stored under the decimal text
    of its channel number. A new file first gets the header, which has as
    many columns as the row. *)
Theorem write_to_csv_success {float} (py_int : pystr → option Z)
    (file_exists : bool) (timestamp : pystr)
    (channel_data : gmap pystr (option float))
    (written : list (list (cell float))) :
  write_to_csv py_int file_exists timestamp channel_data = (written, None) →
  ∃ channels values,
    written = (if file_exists then [] else [header channels])
              ++ [Text timestamp :: values]
    ∧ Sorted Z.le channels
    ∧ length channels = size channel_data
    ∧ length (header (float := float) channels) = length (Text timestamp :: values)
    ∧ (∀ n, n ∈ channels ↔ ∃ k, is_Some (channel_data !! k) ∧ py_int k = Some n)
    ∧ Forall2 (λ n v, ∃ value, channel_data !! str_of_int n = Some value
                               ∧ v = cell_of value) channels values.
Proof.
  pose proof (write_to_csv_outcome py_int file_exists timestamp channel_data) as H.
  destruct (sorted_channels py_int channel_data) as [channels|] eqn:Hs;
    [|by rewrite H].
  destruct (row_values channel_data channels) as [values|] eqn:Hr;
    rewrite H; [|done].
  intros [= <-]. exists channels, values.
  destruct (sorted_channels_Some _ _ _ Hs) as (Hsorted & Hlen & Hin).
  pose proof (row_values_Some _ _ _ Hr) as Hvals.
  split_and!; try done.
  unfold header. simpl. by rewrite length_map, (Forall2_length _ _ _ Hvals).
Qed.

Lemma write_to_csv_success_witness :
  let channel_data : gmap pystr (option pyfloat) :=
    {[ u "10" := Some (Finite false 1 0); u "2" := None;
       u "0" := Some (Finite false 235 (-1)) ]} in
  let timestamp := u "2024-01-01 00:00:00.000" in
  ∃ channels values,
    (write_to_csv int_of_str false timestamp channel_data).1
    = (if false then [] else [header channels]) ++ [Text timestamp :: values]
    ∧ Sorted Z.le channels
    ∧ length channels = size channel_data
    ∧ length (header (float := pyfloat) channels)
      = length (Text timestamp :: values)
    ∧ (∀ n, n ∈ channels
            ↔ ∃ k, is_Some (channel_data !! k) ∧ int_of_str k = Some n)
    ∧ Forall2 (λ n v, ∃ value, channel_data !! str_of_int n = Some value
                               ∧ v = cell_of value) channels values.
Proof.
  apply (write_to_csv_success int_of_str false (u "2024-01-01 00:00:00.000")
           {[ u "10" := Some (Finite false 1 0); u "2" := None;
              u "0" := Some (Finite false 235 (-1)) ]}).
  vm_compute. reflexivity.
Defined.

(** * Further properties of the channel tokens *)

Lemma parse_channels_skip_witness :
  (parse_channels float_of_str ∅ ([u "0=1"] ++ u "1=abc" :: [u "2=3"])).2
  = (parse_channels float_of_str ∅ ([u "0=1"] ++ [u "2=3"])).2.
Proof.
  apply (parse_channels_skip float_of_str ∅ [u "0=1"] [u "2=3"]
           (u "1=abc") (u "1") (u "abc")).
  - reflexivity.
  - reflexivity.
  - discriminate.
  - reflexivity.
Defined.

(** A token without [=], such as the empty token after a last [;], is
    passed over: the channels, the warnings and the outcome of the loop
    are those of the other tokens. *)
Theorem parse_channels_ignores_other_tokens {float}
    (py_float : pystr → option float) (d : gmap pystr (option float))
    (before after : list pystr) (channel : pystr) :
  contains [c_eq] channel = false →
  parse_channels py_float d (before ++ channel :: after)
  = parse_channels py_float d (before ++ after).
Proof.
  intros Hc. revert d. induction before as [|c cs IH]; intros d; simpl.
  - unfold parse_channel. rewrite Hc.
    apply (bind_ret d (λ d, parse_channels py_float d after)).
  - unfold_M. destruct (parse_channel py_float d c) as [l [e|d']]; [done|].
    by rewrite IH.
Qed.

Lemma parse_channels_ignores_other_tokens_witness :
  parse_channels float_of_str ∅ ([u "0=1"] ++ [] :: [u "2=3"])
  = parse_channels float_of_str ∅ ([u "0=1"] ++ [u "2=3"]).
Proof.
  apply (parse_channels_ignores_other_tokens float_of_str ∅ [u "0=1"] [u "2=3"] []).
  reflexivity.
Defined.

(** ** Where the characters of a channel key come from *)

Lemma elem_of_before_first (sep x : N) (s : pystr) :
  x ∈ before_first sep s → x ∈ s.
Proof.
  induction s as [|c t IH]; simpl; [done|].
  destruct (c =? sep); [by intros ?%elem_of_nil|].
  rewrite !elem_of_cons. intros [?|?]; [by left | right; by apply IH].
Qed.

Lemma elem_of_remove_from (pat s : pystr) (skip : nat) (x : N) :
  x ∈ remove_from pat s skip → x ∈ s.
Proof.
  revert skip. induction s as [|c t IH]; intros skip; [done|].
  destruct skip as [|k].
  - change (remove_from pat (c :: t) 0)
      with (if startswith pat (c :: t)
            then remove_from pat t (Nat.pred (length pat))
            else c :: remove_from pat t 0).
    destruct (startswith pat (c :: t)); rewrite !elem_of_cons.
    + intros ?%IH. by right.
    + intros [?|?%IH]; [by left | by right].
  - simpl. rewrite elem_of_cons. intros ?%IH. by right.
Qed.

Lemma elem_of_lstrip (s : pystr) (x : N) : x ∈ lstrip s → x ∈ s.
Proof.
  induction s as [|c t IH]; simpl; [done|].
  destruct (py_isspace c); [|done]. intros ?%IH. apply elem_of_cons. by right.
Qed.

Lemma elem_of_strip (s : pystr) (x : N) : x ∈ strip s → x ∈ s.
Proof.
  unfold strip, rstrip. rewrite list_elem_of_In, <- in_rev, <- list_elem_of_In.
  intros Hx%elem_of_lstrip. rewrite list_elem_of_In, <- in_rev, <- list_elem_of_In in Hx.
  by apply elem_of_lstrip.
Qed.

Lemma elem_of_split (sep : N) (s piece : pystr) :
  piece ∈ split sep s → (sep ∉ piece) ∧ ∀ x, x ∈ piece → x ∈ s.
Proof.
  revert piece. induction s as [|c t IH]; intros piece; simpl.
  - intros ->%list_elem_of_singleton. split; [by intros ?%elem_of_nil | done].
  - destruct (N.eqb_spec c sep) as [->|Hc].
    + intros [->|Hin]%elem_of_cons.
      * split; [by intros ?%elem_of_nil | by intros x ?%elem_of_nil].
      * destruct (IH _ Hin) as [? Hsub]. split; [done|].
        intros x Hx. apply elem_of_cons. right. by apply Hsub.
    + destruct (split sep t) as [|q qs] eqn:E; [by destruct (split_nonempty sep t)|].
      intros [->|Hin]%elem_of_cons.
      * destruct (IH q) as [Hq Hsub]; [by apply elem_of_cons; left|].
        split.
        -- rewrite not_elem_of_cons. split; [congruence | done].
        -- intros x [->|Hx]%elem_of_cons; apply elem_of_cons; [by left|].
           right. by apply Hsub.
      * destruct (IH piece) as [? Hsub]; [by apply elem_of_cons; right|].
        split; [done|]. intros x Hx. apply elem_of_cons. right. by apply Hsub.
Qed.

Section Keys.
Context {float : Type} (py_float : pystr → option float).
Implicit Types (d : gmap pystr (option float)) (k channel : pystr).

Lemma parse_channel_keys d d' channel k l :
  parse_channel py_float d channel = (l, inr d') →
  is_Some (d' !! k) →
  is_Some (d !! k) ∨ ∃ value, split c_eq (strip channel) = [k; value].
Proof.
  unfold parse_channel. destruct (contains [c_eq] channel).
  - destruct (split c_eq (strip channel)) as [|x [|y [|z w]]]; try done.
    rewrite parse_value_total. case_decide.
    + intros [= _ <-]. rewrite lookup_insert. case_decide; [|by left].
      subst. right. by exists y.
    + destruct (py_float y).
      * intros [= _ <-]. rewrite lookup_insert. case_decide; [|by left].
        subst. right. by exists y.
      * intros [= _ <-]. by left.
  - intros [= _ <-]. by left.
Qed.

Lemma parse_channels_keys d d' (channels : list pystr) k l :
  parse_channels py_float d channels = (l, inr d') →
  is_Some (d' !! k) →
  is_Some (d !! k)
  ∨ ∃ channel value, channel ∈ channels ∧ split c_eq (strip channel) = [k; value].
Proof.
  revert d l. induction channels as [|c cs IH]; intros d l; simpl.
  - intros [= _ <-]. by left.
  - unfold_M. destruct (parse_channel py_float d c) as [l1 [e|d1]] eqn:E; [done|].
    destruct (parse_channels py_float d1 cs) as [l2 r] eqn:E2.
    intros [= _ ->] Hk.
    destruct (IH _ _ E2 Hk) as [Hk1|(channel & value & Hin & Hs)].
    + destruct (parse_channel_keys _ _ _ _ _ E Hk1) as [?|[value Hs]]; [by left|].
      right. exists c, value. split; [by apply elem_of_cons; left | done].
    + right. exists channel, value. split; [by apply elem_of_cons; right | done].
Qed.
End Keys.

(** The channel keys of a parsed packet are free of the separators of the
    protocol: none contains [<], [>], [;] or [=]. *)
Theorem channel_keys_have_no_separator {float} (py_float : pystr → option float)
    (self : IoTUDPServer float) (packet_bytes : list byte) (p : parsed float)
    (k : pystr) :
  (parse_packet py_float self packet_bytes).2 = Some p →
  is_Some (channel_data p !! k) →
  (c_lt ∉ k) ∧ (c_gt ∉ k) ∧ (c_semi ∉ k) ∧ (c_eq ∉ k).
Proof.
  intros (packet_str & l & Hdec & Hp)%parse_packet_Some Hk.
  rewrite parse_packet_str_eq in Hp.
  destruct (after_first c_lt packet_str) as [r|] eqn:Hr; [|done].
  set (content := before_first c_gt (before_first c_lt r)) in *.
  unfold parse_content, parse_channel_data in Hp.
  destruct (contains sendVal content); [|by unfold_M].
  destruct (strip (remove_all sendVal content)) as [|c0 t] eqn:Hbody.
  { unfold_M. simpl in Hp. injection Hp as _ <-. simpl in Hk.
    rewrite lookup_empty in Hk. by destruct Hk. }
  revert Hp. unfold_M.
  destruct (parse_channels py_float ∅ (split c_semi (c0 :: t))) as [l' [e|d]] eqn:E;
    simpl; [done|].
  intros [= _ <-]. simpl in Hk.
  destruct (parse_channels_keys py_float _ _ _ _ _ E Hk)
    as [Habs|(channel & value & Hin & Hs)].
  { rewrite lookup_empty in Habs. by destruct Habs. }
  destruct (elem_of_split _ _ _ Hin) as [Hsemi Hsub].
  assert (k ∈ split c_eq (strip channel)) as Hkin
    by (rewrite Hs; apply elem_of_cons; by left).
  destruct (elem_of_split _ _ _ Hkin) as [Heq Hsub'].
  assert (∀ x, x ∈ k → x ∈ content) as Hcontent.
  { intros x Hx. apply (elem_of_remove_from sendVal content 0).
    apply elem_of_strip. fold (remove_all sendVal content). rewrite Hbody.
    by apply Hsub, elem_of_strip, Hsub'. }
  split_and!.
  - intros Hx%Hcontent. unfold content in Hx.
    apply elem_of_before_first in Hx. by apply before_first_notin in Hx.
  - intros Hx%Hcontent. by apply before_first_notin in Hx.
  - intros Hx. apply Hsemi, elem_of_strip. by apply Hsub'.
  - done.
Qed.

Lemma channel_keys_have_no_separator_witness :
  (c_lt ∉ u "0") ∧ (c_gt ∉ u "0") ∧ (c_semi ∉ u "0") ∧ (c_eq ∉ u "0").
Proof.
  apply (channel_keys_have_no_separator float_of_str (new_server pyfloat)
           (b "DEV1<sendVal 0=23.5;1=NaN>CHK") dev1_data1 (u "0")).
  - reflexivity.
  - vm_compute. eauto.
Defined.
